(** * tr1d1um: the translation and forwarding pipeline

    A shallow embedding of the request decoding, response translation,
    error encoding and request execution code of tr1d1um
    (translation/transport.go, communication.go and the header helper of
    the common package), with the properties the specification states
    about them.

    Go values are modelled as follows.
    - [string] is Rocq's [string]; [[]byte] is [list byte] (a nil slice is
      the empty list).
    - [map[string]string] (mux.Vars) is [gmap string string];
      [http.Header] and [url.Values] are [gmap string (list string)].
    - a pair of results [(v, err)] is a Rocq pair whose second component
      is [option error], [None] standing for a nil error.
    - a failed type assertion or a nil dereference (a panic) makes the
      function return [None].
    - functions of packages outside the repository (encoding/json, wrp,
      golang-money) and declarations of the repository that are not part
      of the translated files are fields of the classes [Json], [Wrp],
      [Money], [MoneyOps] and [Declared]: every theorem holds for all of
      them. *)

From stdpp Require Import gmap strings list fin_maps.
From Stdlib Require Import ZArith Strings.Byte Strings.Ascii.

Open Scope Z_scope.

#[global] Instance byte_eq_dec : EqDecision byte := Byte.byte_eq_dec.

(** ** Errors *)

(** Error values are compared by identity in Go.  The named errors of the
    translation and common packages and of package context are
    constructors; [LibError] stands for the errors that the libraries
    build (a JSON syntax error, a failed read, a transport error). *)
Inductive error : Type :=
  | ErrEmptyNames
  | ErrMissingTable
  | ErrMissingRow
  | ErrMissingRows
  | ErrInvalidSetWDMP
  | ErrInvalidService
  | ErrUnsupportedMethod
  | ErrTr1d1umInternal
  | Canceled
  | DeadlineExceeded
  | LibError (msg : string).

#[global] Instance error_eq_dec : EqDecision error.
Proof. solve_decision. Defined.

(** ** Package strings *)

Module strings.

(** [strings.HasPrefix(s, prefix)]. *)
Definition HasPrefix (s prefix : string) : bool := String.prefix prefix s.

(** [strings.Split(s, sep)] for a separator of one byte: the pieces
    of [s] between the occurrences of [sep]; one piece more than there
    are separators, so that the empty string has the one empty piece. *)
Fixpoint Split (s : string) (sep : ascii) : list string :=
  match s with
  | EmptyString => [EmptyString]
  | String c s' =>
      if Ascii.eqb c sep then EmptyString :: Split s' sep
      else
        match Split s' sep with
        | piece :: pieces => String c piece :: pieces
        | [] => [String c EmptyString]
        end
  end.

(** [strings.Join(elems, sep)], used to characterise [Split]. *)
Fixpoint Join (elems : list string) (sep : ascii) : string :=
  match elems with
  | [] => EmptyString
  | [e] => e
  | e :: rest => e +:+ String sep (Join rest sep)
  end.

(** [strings.Count(s, sep)] for a separator of one byte. *)
Fixpoint Count (s : string) (sep : ascii) : nat :=
  match s with
  | EmptyString => O
  | String c s' => if Ascii.eqb c sep then S (Count s' sep) else Count s' sep
  end.

End strings.

(** ** Package io *)

(** An [io.Reader] as [ioutil.ReadAll] sees it: the bytes it yields until
    it stops, and the error it stops with ([None] for EOF). *)
Record Reader : Type := mkReader {
  rd_data : list byte;
  rd_err : option error
}.

(** [ioutil.ReadAll(r)]: the data read so far and the error. *)
Definition ReadAll (r : Reader) : list byte * option error :=
  (rd_data r, rd_err r).

(** ** Package net/http *)

Module http.

Definition StatusOK : Z := 200.
Definition StatusInternalServerError : Z := 500.

Definition MethodGet : string := "GET".
Definition MethodPatch : string := "PATCH".
Definition MethodDelete : string := "DELETE".
Definition MethodPut : string := "PUT".
Definition MethodPost : string := "POST".

(** [http.Header].  The keys of a header map that net/http has filled
    are in canonical form. *)
Abbreviation Header := (gmap string (list string)).

(** The bytes of a header name that [textproto] takes for a token:
    letters, digits and [!#$%&'*+-.^_`|~]. *)
Definition isLower (c : ascii) : bool :=
  (97 <=? nat_of_ascii c)%nat && (nat_of_ascii c <=? 122)%nat.

Definition isUpper (c : ascii) : bool :=
  (65 <=? nat_of_ascii c)%nat && (nat_of_ascii c <=? 90)%nat.

Definition isDigit (c : ascii) : bool :=
  (48 <=? nat_of_ascii c)%nat && (nat_of_ascii c <=? 57)%nat.

Definition validHeaderFieldByte (c : ascii) : bool :=
  isLower c || isUpper c || isDigit c
  || existsb (Nat.eqb (nat_of_ascii c))
       [33; 35; 36; 37; 38; 39; 42; 43; 45; 46; 94; 95; 96; 124; 126]%nat.

Fixpoint validHeaderField (s : string) : bool :=
  match s with
  | EmptyString => true
  | String c s' => validHeaderFieldByte c && validHeaderField s'
  end.

(** The letters of a name put in canonical case: a capital at the
    start and after each hyphen ([upper] says that one is due), small
    letters elsewhere. *)
Fixpoint canonicalCase (upper : bool) (s : string) : string :=
  match s with
  | EmptyString => EmptyString
  | String c s' =>
      let c :=
        if upper && isLower c then ascii_of_nat (nat_of_ascii c - 32)
        else if negb upper && isUpper c then ascii_of_nat (nat_of_ascii c + 32)
        else c in
      String c (canonicalCase (Ascii.eqb c "-") s')
  end.

(** [textproto.CanonicalMIMEHeaderKey(s)], by which [Set] and [Get]
    find the key they work on: a name with a byte that is no token
    byte is left as it is. *)
Definition CanonicalHeaderKey (s : string) : string :=
  if validHeaderField s then canonicalCase true s else s.

(** The keys of [h] are in canonical form, as are those of every
    header map that net/http has filled from a message it received. *)
Definition canonicalKeys (h : Header) : Prop :=
  map_Forall (λ key _, CanonicalHeaderKey key = key) h.

(** [h.Add(key, value)] appends to the values of [key], for a key in
    canonical form: the one caller, [ForwardHeadersByPrefix], passes
    the keys of the header map of a response, and for a key in
    canonical form the key that [Add] works on is the key itself. *)
Definition Add (key value : string) (h : Header) : Header :=
  <[key := default [] (h !! key) ++ [value]]> h.

(** [h.Set(key, value)] replaces the values of the canonical form of
    [key]. *)
Definition Set_ (key value : string) (h : Header) : Header :=
  <[CanonicalHeaderKey key := [value]]> h.

(** [h.Get(key)]: the first value of the canonical form of [key], the
    empty string when there is none. *)
Definition Get (key : string) (h : Header) : string :=
  match h !! CanonicalHeaderKey key with
  | Some (v :: _) => v
  | _ => ""
  end.

(** An [http.ResponseWriter] that records what the handler sends: the
    header map as the handler leaves it, the status code once it is
    written, the body bytes.  Writing to it does not fail: the error of
    [Write] is always nil.  What the writer adds of its own when it
    sends (a Content-Type found from the first bytes when the handler
    set none, the date, the length) is not recorded. *)
Record ResponseWriter : Type := mkResponseWriter {
  header : Header;
  code : option Z;
  body : list byte
}.

Definition newResponseWriter : ResponseWriter :=
  {| header := ∅; code := None; body := [] |}.

Definition with_header (f : Header → Header) (w : ResponseWriter)
  : ResponseWriter :=
  {| header := f (header w); code := code w; body := body w |}.

(** [w.WriteHeader(statusCode)]: the first status written is the one
    that is sent, later calls change nothing. *)
Definition WriteHeader (statusCode : Z) (w : ResponseWriter)
  : ResponseWriter :=
  match code w with
  | Some _ => w
  | None => {| header := header w; code := Some statusCode; body := body w |}
  end.

(** [w.Write(b)]: writes the status [StatusOK] first when none was
    written, then the bytes. *)
Definition Write (b : list byte) (w : ResponseWriter) : ResponseWriter :=
  let w' := WriteHeader StatusOK w in
  {| header := header w'; code := code w'; body := body w' ++ b |}.

(** Nothing of the response was sent yet: no status, no body. *)
Definition unwritten (w : ResponseWriter) : Prop :=
  code w = None ∧ body w = [].

(** The [*http.Response] of the server, as far as the handlers read
    it. *)
Record Response : Type := mkResponse {
  StatusCode : Z;
  Status : string;
  Header_ : Header;
  Body : Reader
}.

(** The [*http.Request] a handler receives, as far as the decoders
    read it: [Vars] is [mux.Vars(r)], [Form] the parsed query. *)
Record Request : Type := mkRequest {
  Method : string;
  Vars : gmap string string;
  Form : gmap string (list string);
  ReqHeader : Header;
  ReqBody : Reader
}.

(** [r.FormValue(key)]: the first value of [key], the empty string
    when there is none. *)
Definition FormValue (key : string) (r : Request) : string :=
  match Form r !! key with
  | Some (v :: _) => v
  | _ => ""
  end.

End http.

(** ** Package mux *)

(** [v[key]] on the path variables: the empty string for a missing
    key. *)
Definition var (v : gmap string string) (key : string) : string :=
  default "" (v !! key).

(** ** Package common: header forwarding *)

Module common.

Import http.

(** The body of the outer loop of [ForwardHeadersByPrefix] for one map
    entry: every value of a key that has the prefix is added. *)
Definition forwardEntry (p : string) (w : Header)
    (entry : string * list string) : Header :=
  if strings.HasPrefix entry.1 p
  then foldl (λ h headerValue, Add entry.1 headerValue h) w entry.2
  else w.

(** What the loop does to the values [old] of a key of the caller's
    headers when the backend has [values] under that key: they are
    appended when the key has the prefix. *)
Definition forwarded (p : string) (key : string) (values : list string)
    (old : option (list string)) : option (list string) :=
  if strings.HasPrefix key p then
    match values with
    | [] => old
    | _ => Some (default [] old ++ values)
    end
  else old.

(** [for headerKey, headerValues := range resp.Header] visits the
    entries of the map in an order that Go leaves unspecified:
    [forwardRange] is the loop for a given order of visit. *)
Definition forwardRange (order : list (string * list string))
    (p : string) (w : Header) : Header :=
  foldl (forwardEntry p) w order.

(** [ForwardHeadersByPrefix(p, resp, w)]: [resp] is [None] for a nil
    response.  The order of visit is the one of [map_to_list]; by
    [forwardRange_order] every other order gives the same headers. *)
Definition ForwardHeadersByPrefix (p : string) (resp : option Header)
    (w : Header) : Header :=
  match resp with
  | Some h => forwardRange (map_to_list h) p w
  | None => w
  end.

End common.

(** ** Device commands (the WDMP payloads) *)

(** The command names; the string constants behind them are declared
    outside the translated files. *)
Inductive Command : Type :=
  | CommandGet
  | CommandGetAttrs
  | CommandSet
  | CommandTestSet
  | CommandAddRow
  | CommandReplaceRows
  | CommandDeleteRow.

#[global] Instance Command_eq_dec : EqDecision Command.
Proof. solve_decision. Defined.

Record getWDMP : Type := mkGetWDMP {
  get_Command : Command;
  get_Names : list string;
  get_Attributes : string
}.

(** Modelled from the spec: the row types are declared outside the
    translated files; section 3 of the specification gives a row as a
    mapping from strings to values and the rows of a replace command as
    an ordered list of rows. *)
Abbreviation Row := (gmap string string).
Abbreviation Rows := (list (gmap string string)).

Record addRowWDMP : Type := mkAddRowWDMP {
  add_Command : Command;
  add_Table : string;
  add_Row : Row
}.

Record replaceRowsWDMP : Type := mkReplaceRowsWDMP {
  replace_Command : Command;
  replace_Table : string;
  replace_Rows : Rows
}.

Record deleteRowDMP : Type := mkDeleteRowDMP {
  delete_Command : Command;
  delete_Row : string
}.

(** Modelled from the spec: the set command is declared outside the
    translated files; section 3 gives it name/value pairs and three
    optional concurrency-control fields. *)
Record setWDMP : Type := mkSetWDMP {
  set_Command : option Command;
  set_OldCid : string;
  set_NewCid : string;
  set_SyncCmc : string;
  set_Parameters : list (string * string)
}.

Definition newSetWDMP : setWDMP :=
  {| set_Command := None; set_OldCid := ""; set_NewCid := "";
     set_SyncCmc := ""; set_Parameters := [] |}.

(** What [json.Marshal] is called on. *)
Inductive wdmp : Type :=
  | GetWDMP (g : getWDMP)
  | SetWDMP (s : setWDMP)
  | AddRowWDMP (a : addRowWDMP)
  | ReplaceRowsWDMP (r : replaceRowsWDMP)
  | DeleteRowDMP (d : deleteRowDMP).

(** ** Package wrp *)

(** [wrp.Message], with the fields the gateway reads or writes. *)
Record wrpMessage : Type := mkWrpMessage {
  Source : string;
  Destination : string;
  TransactionUUID : string;
  ContentType : string;
  Payload : list byte
}.

Class Wrp : Type := {
  (** [wrp.NewDecoderBytes(b, wrp.Msgpack).Decode(m)] on a new message:
      the message and the error. *)
  DecodeMsgpack : list byte → wrpMessage * option error
}.

(** ** Package encoding/json *)

Class Json : Type := {
  (** [json.Marshal(v)] *)
  Marshal : wdmp → list byte * option error;
  (** [json.Unmarshal(data, wdmp)] into a set command *)
  UnmarshalSet : list byte → setWDMP → setWDMP * option error;
  (** [json.Unmarshal(payload, &wdmp.Row)] *)
  UnmarshalRow : list byte → Row * option error;
  (** [json.Unmarshal(payload, &wdmp.Rows)] *)
  UnmarshalRows : list byte → Rows * option error;
  (** [json.Unmarshal(payload, &deviceResponseModel)]: the field
      [StatusCode] afterwards (zero when the payload has none) and the
      error *)
  UnmarshalStatusCode : list byte → Z * option error;
  (** the bytes [json.NewEncoder(w).Encode] writes for a map that has the
      one key ["message"] *)
  EncodeMessage : string → list byte
}.

(** ** Request contexts and package golang-money *)

Class Money : Type := {
  Tracker : Type;
  SpanResult : Type
}.

(** The [context.Context] of a request, as far as the handlers read it:
    the value under [ContextKeyRequestTID] when it is a string, and the
    tracker of [money.TrackerFromContext]. *)
Record Context {M : Money} : Type := mkContext {
  RequestTID : option string;
  TrackerFromContext : option Tracker
}.

(** The response of the XMiDT cluster as the service hands it over. *)
Record XmidtResponse : Type := mkXmidtResponse {
  xBody : list byte;
  ForwardedHeaders : http.Header;
  Code : Z
}.

Class MoneyOps {M : Money} : Type := {
  (** [tracker.Finish()] *)
  Finish : Tracker → SpanResult;
  (** [money.WriteSpansHeaderTr1d1um(result, w, response)] *)
  WriteSpansHeaderTr1d1um :
    SpanResult → http.ResponseWriter → XmidtResponse → http.ResponseWriter
}.

(** ** Declarations of the repository outside the translated files *)

Record wrpRequest : Type := mkWrpRequest {
  WRPMessage : wrpMessage;
  AuthHeaderValue : string
}.

Class Declared : Type := {
  (** header names of package common and of the translation package *)
  HeaderWPATID : string;
  HeaderWPASyncNewCID : string;
  HeaderWPASyncOldCID : string;
  HeaderWPASyncCMC : string;
  (** [err.(common.CodedError)]: the [StatusCode()] of an error that is
      a coded error *)
  asCodedError : error → option Z;
  (** [err.Error()] *)
  Error_ : error → string;
  (** [deduceSET(wdmp, newCID, oldCID, syncCMC)] *)
  deduceSET : setWDMP → string → string → string → setWDMP * option error;
  isValidSetWDMP : setWDMP → bool;
  (** [wrap(payload, tid, pathVars)] *)
  wrap : list byte → string → gmap string string → wrpMessage * option error;
  (** [ReportError(err, origin)] of the main package *)
  ReportError : option error → http.ResponseWriter → http.ResponseWriter;
  (** [ch.encodingHelper.ExtractPayload(body, wrp.JSON)] *)
  ExtractPayload : Reader → list byte * option error;
  GetStatusCodeFromRDKResponse : list byte → Z * option error
}.

(** ** translation/transport.go *)

Module translation.

Import http common.

Definition contentTypeHeaderKey : string := "Content-Type".
Definition authHeaderKey : string := "Authorization".
Definition jsonContentType : string := "application/json; charset=utf-8".

Section Decoding.

Context {J : Json} {D : Declared}.

(** [requestGetPayload(names, attributes)] *)
Definition requestGetPayload (names attributes : string)
  : list byte * option error :=
  if decide (names = "") then ([], Some ErrEmptyNames)
  else
    let wdmp :=
      {| get_Names := strings.Split names ","; get_Command := CommandGet;
         get_Attributes := "" |} in
    let wdmp :=
      if decide (attributes ≠ "")
      then {| get_Names := get_Names wdmp; get_Command := CommandGetAttrs;
              get_Attributes := attributes |}
      else wdmp in
    Marshal (GetWDMP wdmp).

(** [requestSetPayload(in, newCID, oldCID, syncCMC)] *)
Definition requestSetPayload (input : Reader)
    (newCID oldCID syncCMC : string) : list byte * option error :=
  let wdmp := newSetWDMP in
  let '(data, err) := ReadAll input in
  match err with
  | None =>
      let '(wdmp, err) := UnmarshalSet data wdmp in
      if decide (err = None ∨ length data = O) then
        let '(wdmp, err) := deduceSET wdmp newCID oldCID syncCMC in
        match err with
        | None =>
            if negb (isValidSetWDMP wdmp) then ([], Some ErrInvalidSetWDMP)
            else Marshal (SetWDMP wdmp)
        | Some e => ([], Some e)
        end
      else ([], err)
  | Some e => ([], Some e)
  end.

(** [requestAddPayload(m, input)] *)
Definition requestAddPayload (m : gmap string string) (input : Reader)
  : list byte * option error :=
  match m !! "parameter" with
  | None => ([], Some ErrMissingTable)
  | Some table =>
      let '(payload, err) := ReadAll input in
      match err with
      | None =>
          if decide (length payload = O) then ([], Some ErrMissingRow)
          else
            let '(row, err) := UnmarshalRow payload in
            match err with
            | None =>
                Marshal (AddRowWDMP {| add_Command := CommandAddRow;
                                       add_Table := table;
                                       add_Row := row |})
            | Some e => ([], Some e)
            end
      | Some e => ([], Some e)
      end
  end.

(** [requestReplacePayload(m, input)] *)
Definition requestReplacePayload (m : gmap string string) (input : Reader)
  : list byte * option error :=
  match m !! "parameter" with
  | None => ([], Some ErrMissingTable)
  | Some table =>
      let '(payload, err) := ReadAll input in
      match err with
      | None =>
          if decide (length payload = O) then ([], Some ErrMissingRows)
          else
            let '(rows, err) := UnmarshalRows payload in
            match err with
            | None =>
                Marshal (ReplaceRowsWDMP
                           {| replace_Command := CommandReplaceRows;
                              replace_Table := table;
                              replace_Rows := rows |})
            | Some e => ([], Some e)
            end
      | Some e => ([], Some e)
      end
  end.

(** [requestDeletePayload(m)] *)
Definition requestDeletePayload (m : gmap string string)
  : list byte * option error :=
  match m !! "parameter" with
  | Some row =>
      Marshal (DeleteRowDMP {| delete_Command := CommandDeleteRow;
                               delete_Row := row |})
  | None => ([], Some ErrMissingRow)
  end.

(** [requestPayload(r)] *)
Definition requestPayload (r : Request) : list byte * option error :=
  if decide (Method r = MethodGet) then
    requestGetPayload (FormValue "names" r) (FormValue "attributes" r)
  else if decide (Method r = MethodPatch) then
    requestSetPayload (ReqBody r) (Get HeaderWPASyncNewCID (ReqHeader r))
      (Get HeaderWPASyncOldCID (ReqHeader r))
      (Get HeaderWPASyncCMC (ReqHeader r))
  else if decide (Method r = MethodDelete) then
    requestDeletePayload (Vars r)
  else if decide (Method r = MethodPut) then
    requestReplacePayload (Vars r) (ReqBody r)
  else if decide (Method r = MethodPost) then
    let v := Vars r in
    if decide (var v "service" = "iot") then
      if decide (var v "parameters" = "") then ReadAll (ReqBody r)
      else ([], Some ErrInvalidService)
    else requestAddPayload v (ReqBody r)
  else ([], Some ErrUnsupportedMethod).

End Decoding.

Section Handlers.

Context {J : Json} {W : Wrp} {D : Declared} {M : Money} {MO : MoneyOps}.

(** [decodeRequest(ctx, r)], from the call of [requestPayload] on
    (lines 82 to 98), without the field [httpTracker] of the request.
    The lines 75 to 80 are left out: they start a trace span when the
    request carries a trace header and would keep a request that holds
    only its tracker, through names ([decodeRequest], [request], [ht])
    that are not the ones in scope.  The request of this model is
    therefore the one the decoding builds, and nil until then.  The
    result is [None] when the type assertion on the transaction id
    panics. *)
Definition decodeRequest (ctx : Context) (r : Request)
  : option (option wrpRequest * option error) :=
  let '(payload, err) := requestPayload r in
  match err with
  | None =>
      tid ← RequestTID ctx;
      let '(wrpMsg, err) := wrap payload tid (Vars r) in
      match err with
      | None =>
          Some (Some {| WRPMessage := wrpMsg;
                        AuthHeaderValue := Get authHeaderKey (ReqHeader r) |},
                None)
      | Some e => Some (None, Some e)
      end
  | Some e => Some (None, Some e)
  end.

(** [encodeResponse(ctx, w, response)] for a given order of visit of
    the forwarded headers.  The result is [None] when the type
    assertion on the transaction id panics. *)
Definition encodeResponseRange (order : list (string * list string))
    (ctx : Context) (w : ResponseWriter) (resp : XmidtResponse)
  : option (ResponseWriter * option error) :=
  let w := with_header (forwardRange order "") w in
  tid ← RequestTID ctx;
  let w := with_header (Set_ HeaderWPATID tid) w in
  if decide (Code resp ≠ StatusOK) then
    let w := WriteHeader (Code resp) w in
    Some (Write (xBody resp) w, None)
  else
    let '(wrpModel, err) := DecodeMsgpack (xBody resp) in
    let '(w, err) :=
      match err with
      | None =>
          let w := with_header (Set_ "Content-Type" jsonContentType) w in
          let '(deviceStatusCode, errUnmarshall) :=
            UnmarshalStatusCode (Payload wrpModel) in
          let w :=
            match errUnmarshall with
            | None =>
                if decide (deviceStatusCode ≠ 0
                           ∧ deviceStatusCode ≠ StatusInternalServerError)
                then WriteHeader deviceStatusCode w
                else w
            | Some _ => w
            end in
          (Write (Payload wrpModel) w, None)
      | Some e => (w, Some e)
      end in
    let w :=
      match TrackerFromContext ctx with
      | Some tracker => WriteSpansHeaderTr1d1um (Finish tracker) w resp
      | None => w
      end in
    Some (w, err).

(** [encodeResponse(ctx, w, response)] *)
Definition encodeResponse (ctx : Context) (w : ResponseWriter)
    (resp : XmidtResponse) : option (ResponseWriter * option error) :=
  encodeResponseRange (map_to_list (ForwardedHeaders resp)) ctx w resp.

(** [encodeError(ctx, err, w)] *)
Definition encodeError (ctx : Context) (err : error) (w : ResponseWriter)
  : option ResponseWriter :=
  let w := with_header (Set_ contentTypeHeaderKey jsonContentType) w in
  tid ← RequestTID ctx;
  let w := with_header (Set_ HeaderWPATID tid) w in
  let '(w, err) :=
    match asCodedError err with
    | Some statusCode => (WriteHeader statusCode w, err)
    | None => (WriteHeader StatusInternalServerError w, ErrTr1d1umInternal)
    end in
  Some (Write (EncodeMessage (Error_ err)) w).

(** The writer of [encodeResponse] after the branch that unwraps the
    envelope, before the tracer: what the branch does when the
    envelope decodes to [msg] and the status code of its payload to
    [(statusCode, errUnmarshall)]. *)
Definition unwrapped (w : ResponseWriter) (tid : string)
    (resp : XmidtResponse) (msg : wrpMessage) (statusCode : Z)
    (errUnmarshall : option error) : ResponseWriter :=
  let w :=
    with_header (Set_ "Content-Type" jsonContentType)
      (with_header (Set_ HeaderWPATID tid)
         (with_header
            (ForwardHeadersByPrefix "" (Some (ForwardedHeaders resp))) w)) in
  Write (Payload msg)
    (if decide (errUnmarshall = None
                ∧ statusCode ≠ 0 ∧ statusCode ≠ StatusInternalServerError)
     then WriteHeader statusCode w else w).

(** Tracing is the business of golang-money: what the theorems on
    traced requests ask of [WriteSpansHeaderTr1d1um] is that it
    leaves the status and the body alone, and the header [k]. *)
Definition spansKeepResponse (ctx : Context) : Prop :=
  ∀ tracker w resp, TrackerFromContext ctx = Some tracker →
    code (WriteSpansHeaderTr1d1um (Finish tracker) w resp) = code w
    ∧ body (WriteSpansHeaderTr1d1um (Finish tracker) w resp) = body w.

Definition spansKeepHeader (ctx : Context) (k : string) : Prop :=
  ∀ tracker w resp, TrackerFromContext ctx = Some tracker →
    header (WriteSpansHeaderTr1d1um (Finish tracker) w resp) !! k
    = header w !! k.

End Handlers.

(** The routes of [ConfigHandler], below the API prefix: the path
    variables of a request that one of them matches.  A variable
    matches one path segment that is not empty; the first route that
    fits is the one taken. *)
Definition segment (s : string) : bool := negb (String.eqb s "").

Definition route (method : string) (path : list string)
  : option (gmap string string) :=
  match path with
  | ["device"; deviceid; service] =>
      if segment deviceid && String.eqb service "iot"
         && String.eqb method MethodPost
      then Some {[ "deviceid" := deviceid; "service" := service ]}
      else if segment deviceid && segment service
              && (String.eqb method MethodGet
                  || String.eqb method MethodPatch)
      then Some {[ "deviceid" := deviceid; "service" := service ]}
      else None
  | ["device"; deviceid; service; parameter] =>
      if segment deviceid && segment service && segment parameter
         && (String.eqb method MethodDelete || String.eqb method MethodPut
             || String.eqb method MethodPost)
      then Some {[ "deviceid" := deviceid; "service" := service;
                   "parameter" := parameter ]}
      else None
  | _ => None
  end.

End translation.

(** ** Package go-kit/transport/http *)

Module kithttp.

Import http.

Section Server.

Context {M : Money}.
Context {Req Resp : Type}.

(** [Server.ServeHTTP] of the server that [kithttp.NewServer(e, dec,
    enc, ServerErrorEncoder(errorEncoder))] builds: decode, call the
    endpoint, encode, and at the first error call the error encoder
    and return (the before functions and the finalizer of the server
    write nothing and are left out).  The endpoint is where the
    request leaves for the network: the second component of the
    result lists the requests the endpoint was called with. *)
Definition ServeHTTP
    (e : Req → Resp * option error)
    (dec : Context → Request → option (option Req * option error))
    (enc : Context → ResponseWriter → Resp
           → option (ResponseWriter * option error))
    (errorEncoder : Context → error → ResponseWriter
                    → option ResponseWriter)
    (ctx : Context) (w : ResponseWriter) (r : Request)
  : option (ResponseWriter * list Req) :=
  '(request, err) ← dec ctx r;
  match err with
  | Some err => w ← errorEncoder ctx err w; Some (w, [])
  | None =>
      request ← request;
      let '(response, err) := e request in
      match err with
      | Some err => w ← errorEncoder ctx err w; Some (w, [request])
      | None =>
          '(w, err) ← enc ctx w response;
          match err with
          | Some err => w ← errorEncoder ctx err w; Some (w, [request])
          | None => Some (w, [request])
          end
      end
  end.

End Server.

End kithttp.

(** ** communication.go *)

Module communication.

Import http common.

(** What [HandleResponse] hands to its error logger. *)
Inductive logEntry : Type :=
  | LogError (err : error)
  | LogNon200 (status : string).

Section Handling.

Context {D : Declared}.

(** [forwardInput(origin, input)] for an origin and an input that
    are not nil. *)
Definition forwardInput (origin : ResponseWriter) (input : Reader)
  : ResponseWriter * option error :=
  let '(body, readErr) := ReadAll input in
  match readErr with
  | None => (Write body origin, None)
  | Some e => (origin, Some e)
  end.

(** [HandleResponse(ch, err, respFromServer, origin, wholeBody)]: the
    writer afterwards and what was logged.  [respFromServer] is
    [None] for a nil response; the result is [None] when a nil
    response is dereferenced.  The [ForwardHeadersByPrefix] it calls
    first is the one of its own package, which takes the origin before
    the response and whose text is not at hand: it is taken to copy
    from the response to the origin as [common.ForwardHeadersByPrefix]
    does, and to do nothing for a nil response. *)
Definition HandleResponse (err : option error)
    (respFromServer : option Response) (origin : ResponseWriter)
    (wholeBody : bool) : option (ResponseWriter * list logEntry) :=
  let origin :=
    with_header (ForwardHeadersByPrefix "X" (Header_ <$> respFromServer))
                origin in
  match err with
  | Some e => Some (ReportError (Some e) origin, [LogError e])
  | None =>
      respFromServer ← respFromServer;
      if decide (StatusCode respFromServer ≠ StatusOK) then
        let '(responseBody, err) := ReadAll (Body respFromServer) in
        let bodyResp :=
          match err with
          | None => responseBody
          | Some _ => []
          end in
        let origin := WriteHeader (StatusCode respFromServer) origin in
        Some (Write bodyResp origin, [LogNon200 (Status respFromServer)])
      else if wholeBody then
        let '(origin, err) := forwardInput origin (Body respFromServer) in
        Some (ReportError err origin, [])
      else
        let '(RDKResponse, err) := ExtractPayload (Body respFromServer) in
        match err with
        | None =>
            let '(RDKRespCode, err) :=
              GetStatusCodeFromRDKResponse RDKResponse in
            let origin :=
              if decide (err = None
                         ∧ RDKRespCode ≠ StatusInternalServerError)
              then WriteHeader RDKRespCode origin
              else origin in
            Some (Write RDKResponse origin, [])
        | Some e => Some (ReportError (Some e) origin, [LogError e])
        end
  end.

End Handling.

(** *** [PerformRequest]: the caller, the goroutine and the channel *)

(** [clientResponse]: what [client.Do] returns.  The response is kept
    abstract. *)
Record clientResponse (R : Type) : Type := mkClientResponse {
  resp : option R;
  err : option error
}.
Arguments mkClientResponse {R} _ _.
Arguments resp {R} _.
Arguments err {R} _.

Section PerformRequest.

Context {R : Type}.

(** The goroutine: in [client.Do], at the send on [responseReady]
    with the result of [client.Do] in hand, after the send (the
    deferred [close] is still to run), or finished. *)
Inductive goroutine : Type :=
  | InClientDo
  | AtSend (r : clientResponse R)
  | AtClose
  | Exited.

(** The caller: at the [select], or returned with [(resp, err)]. *)
Inductive caller : Type :=
  | AtSelect
  | Returned (r : clientResponse R).

(** The state of one call: [responseReady] has no buffer, so that it
    holds nothing between a send and a receive and only its being
    closed is state; [ctxErr] is [ctx.Err()], [None] as long as
    [ctx.Done()] is open. *)
Record state : Type := mkState {
  callerAt : caller;
  goroutineAt : goroutine;
  closed : bool;
  ctxErr : option error
}.

(** The state after [go func() {...}()], at the [select]. *)
Definition start : state :=
  {| callerAt := AtSelect; goroutineAt := InClientDo; closed := false;
     ctxErr := None |}.

Inductive event : Type :=
  (** the context is cancelled or its deadline passes *)
  | CtxDone (e : error)
  (** [client.Do] returns in the goroutine *)
  | DoReturns (r : clientResponse R)
  (** the send of the goroutine meets the receive of the [select] *)
  | Handoff
  (** the [select] takes the case [<-ctx.Done()] *)
  | SelectCtxDone
  (** the deferred [close(responseReady)] runs *)
  | Close
  (** the [select] receives the zero value from the closed channel *)
  | SelectClosed.

(** One step of the call; [None] when the event cannot happen in the
    state.  A send on a channel without buffer completes only
    together with a receive: [Handoff] needs the caller at the
    [select]. *)
Definition exec (ev : event) (s : state) : option state :=
  match ev with
  | CtxDone e =>
      match ctxErr s with
      | None =>
          Some {| callerAt := callerAt s; goroutineAt := goroutineAt s;
                  closed := closed s; ctxErr := Some e |}
      | Some _ => None
      end
  | DoReturns r =>
      match goroutineAt s with
      | InClientDo =>
          Some {| callerAt := callerAt s; goroutineAt := AtSend r;
                  closed := closed s; ctxErr := ctxErr s |}
      | _ => None
      end
  | Handoff =>
      match goroutineAt s, callerAt s with
      | AtSend r, AtSelect =>
          Some {| callerAt := Returned r; goroutineAt := AtClose;
                  closed := closed s; ctxErr := ctxErr s |}
      | _, _ => None
      end
  | SelectCtxDone =>
      match callerAt s, ctxErr s with
      | AtSelect, Some e =>
          Some {| callerAt := Returned (mkClientResponse None (Some e));
                  goroutineAt := goroutineAt s;
                  closed := closed s; ctxErr := ctxErr s |}
      | _, _ => None
      end
  | Close =>
      match goroutineAt s with
      | AtClose =>
          Some {| callerAt := callerAt s; goroutineAt := Exited;
                  closed := true; ctxErr := ctxErr s |}
      | _ => None
      end
  | SelectClosed =>
      match callerAt s, closed s with
      | AtSelect, true =>
          Some {| callerAt := Returned (mkClientResponse None None);
                  goroutineAt := goroutineAt s;
                  closed := closed s; ctxErr := ctxErr s |}
      | _, _ => None
      end
  end.

(** A schedule, run from a state. *)
Fixpoint run (evs : list event) (s : state) : option state :=
  match evs with
  | [] => Some s
  | ev :: evs' =>
      match exec ev s with
      | Some s' => run evs' s'
      | None => None
      end
  end.

Definition step (s s' : state) : Prop := ∃ ev, exec ev s = Some s'.

Definition steps : state → state → Prop := rtc step.

(** The states a call can be in: those some schedule leads to. *)
Definition reachable (s : state) : Prop := ∃ evs, run evs start = Some s.

(** What holds of a state that the events [hist] have led to: what the
    goroutine sends and what the caller returned came from [client.Do]
    or from the context, the goroutine passes its send only together
    with the caller, and the channel is closed only by the goroutine
    on its way out. *)
Definition callInvariant (hist : list event) (s : state) : Prop :=
  (∀ r, goroutineAt s = AtSend r → DoReturns r ∈ hist)
  ∧ (∀ r, callerAt s = Returned r →
       DoReturns r ∈ hist
       ∨ ∃ e, CtxDone e ∈ hist ∧ r = mkClientResponse None (Some e))
  ∧ (∀ e, ctxErr s = Some e → CtxDone e ∈ hist)
  ∧ (goroutineAt s = AtClose ∨ goroutineAt s = Exited →
       ∃ r, callerAt s = Returned r ∧ DoReturns r ∈ hist)
  ∧ (closed s = true ↔ goroutineAt s = Exited).

End PerformRequest.

(** *** [Send] *)

(** The request [Send] hands to the requester, as far as [Send]
    decides it: method, URL and body as given to [NewHTTPRequest], and
    the header.  (The context of the inbound request, which [Send]
    attaches, is not part of it.) *)
Record ServerRequest : Type := mkServerRequest {
  srv_Method : string;
  srv_URL : string;
  srv_Header : Header;
  srv_Body : list byte
}.

(** What [Send] uses of the conversion handler and of the sender: the
    fields [targetURL] and [serverVersion], the constant [baseURI], the
    conversion and encoding tools, [wrp.JSON.ContentType()], the field
    [NewHTTPRequest] and the requester.  The response of the server is
    kept abstract. *)
Class Conversion (R : Type) : Type := {
  baseURI : string;
  targetURL : string;
  serverVersion : string;
  (** [ch.wdmpConvert.GetConfiguredWRP(data, vars, header)] *)
  GetConfiguredWRP : list byte → gmap string string → Header → wrpMessage;
  (** [ch.encodingHelper.GenericEncode(wrpMsg, wrp.JSON)] *)
  GenericEncode : wrpMessage → list byte * option error;
  JSONContentType : string;
  (** [tr1.NewHTTPRequest(method, url, body)]: the request is [None]
      when it is nil *)
  NewHTTPRequest :
    string → string → list byte → option ServerRequest * option error;
  (** [ch.PerformRequest(request)] *)
  PerformRequest : ServerRequest → option R * option error
}.

Section Sending.

Context {R : Type} {C : Conversion R}.

(** What [Send] leaves behind: the writer, the pair it returns, what
    it logged and the requests it had performed. *)
Record sent : Type := mkSent {
  sent_writer : ResponseWriter;
  sent_resp : option R;
  sent_err : option error;
  sent_log : list logEntry;
  sent_performed : list ServerRequest
}.

(** [Send(ch, resp, data, req)].  The result is [None] when the
    request of [NewHTTPRequest] is nil without an error and is
    dereferenced. *)
Definition Send (resp : ResponseWriter) (data : list byte) (req : Request)
  : option sent :=
  let wrpMsg := GetConfiguredWRP data (Vars req) (ReqHeader req) in
  let '(wrpPayload, err) := GenericEncode wrpMsg in
  match err with
  | Some e =>
      Some {| sent_writer := WriteHeader StatusInternalServerError resp;
              sent_resp := None; sent_err := Some e;
              sent_log := [LogError e]; sent_performed := [] |}
  | None =>
      let fullPath :=
        targetURL +:+ baseURI +:+ "/" +:+ serverVersion +:+ "/device" in
      let '(requestToServer, err) :=
        NewHTTPRequest MethodPost fullPath wrpPayload in
      match err with
      | Some e =>
          Some {| sent_writer := WriteHeader StatusInternalServerError resp;
                  sent_resp := None; sent_err := Some e;
                  sent_log := [LogError e]; sent_performed := [] |}
      | None =>
          requestToServer ← requestToServer;
          let requestToServer :=
            {| srv_Method := srv_Method requestToServer;
               srv_URL := srv_URL requestToServer;
               srv_Header :=
                 Set_ "Authorization" (Get "Authorization" (ReqHeader req))
                   (Set_ "Content-Type" JSONContentType
                      (srv_Header requestToServer));
               srv_Body := srv_Body requestToServer |} in
          let '(respFromServer, err) := PerformRequest requestToServer in
          Some {| sent_writer := resp; sent_resp := respFromServer;
                  sent_err := err; sent_log := [];
                  sent_performed := [requestToServer] |}
      end
  end.

End Sending.

End communication.

(** ** An environment for the examples

    Stand-ins for the libraries and for the declarations outside the
    translated files, to run the functions on concrete requests and
    responses.  They agree with the real ones on the inputs the examples
    use; no theorem depends on them. *)

Module example.

Import http.

Definition bytes (s : string) : list byte := String.list_byte_of_string s.

Definition quote (s : string) : string :=
  String "034" (s +:+ String "034" EmptyString).

Definition array (elems : list string) : string :=
  "[" +:+ strings.Join elems "," +:+ "]".

Definition commandName (c : Command) : string :=
  match c with
  | CommandGet => "GET"
  | CommandGetAttrs => "GET_ATTRIBUTES"
  | CommandSet => "SET"
  | CommandTestSet => "TEST_AND_SET"
  | CommandAddRow => "ADD_ROW"
  | CommandReplaceRows => "REPLACE_ROWS"
  | CommandDeleteRow => "DELETE_ROW"
  end.

Definition field (name value : string) : string :=
  quote name +:+ ":" +:+ value.

Definition object (fields : list string) : string :=
  "{" +:+ strings.Join fields "," +:+ "}".

Definition renderRow (row : Row) : string :=
  object ((λ kv, field kv.1 (quote kv.2)) <$> map_to_list row).

Definition render (v : wdmp) : string :=
  match v with
  | GetWDMP g =>
      object ([field "command" (quote (commandName (get_Command g)));
               field "names" (array (quote <$> get_Names g))]
              ++ if decide (get_Attributes g = "") then []
                 else [field "attributes" (quote (get_Attributes g))])
  | SetWDMP s =>
      object [field "parameters"
                (array ((λ kv, object [field "name" (quote kv.1);
                                       field "value" (quote kv.2)])
                        <$> set_Parameters s))]
  | AddRowWDMP a =>
      object [field "command" (quote (commandName (add_Command a)));
              field "table" (quote (add_Table a));
              field "row" (renderRow (add_Row a))]
  | ReplaceRowsWDMP r =>
      object [field "command" (quote (commandName (replace_Command r)));
              field "table" (quote (replace_Table r));
              field "rows" (array (renderRow <$> replace_Rows r))]
  | DeleteRowDMP d =>
      object [field "command" (quote (commandName (delete_Command d)));
              field "row" (quote (delete_Row d))]
  end.

Definition syntaxError : error := LibError "invalid character".

#[export] Instance json : Json := {|
  Marshal v := (bytes (render v), None);
  UnmarshalSet data v :=
    if decide (data = bytes "{}") then (v, None) else (v, Some syntaxError);
  UnmarshalRow data :=
    if decide (data = bytes "{}") then (∅, None) else (∅, Some syntaxError);
  UnmarshalRows data :=
    if decide (data = bytes "null") then ([], None)
    else if decide (data = bytes "[{}]") then ([∅], None)
    else ([], Some syntaxError);
  UnmarshalStatusCode data :=
    if decide (data = bytes (object [field "statusCode" "404"]))
    then (404, None)
    else if decide (data = bytes (object [field "statusCode" "500"]))
    then (500, None)
    else if decide (data = bytes "{}") then (0, None)
    else (0, Some syntaxError);
  EncodeMessage msg := bytes (object [field "message" (quote msg)])
|}.

(** The envelope is its payload; no bytes are no envelope. *)
#[export] Instance envelope : Wrp := {|
  DecodeMsgpack data :=
    ({| Source := ""; Destination := ""; TransactionUUID := "";
        ContentType := ""; Payload := data |},
     match data with
     | [] => Some (LibError "EOF")
     | _ => None
     end)
|}.

#[export] Instance money : Money := {|
  Tracker := unit;
  SpanResult := string
|}.

#[export] Instance moneyOps : MoneyOps := {|
  Finish _ := "span";
  WriteSpansHeaderTr1d1um result w _ :=
    with_header (Set_ "X-Money-Spans" result) w
|}.

#[export] Instance declared : Declared := {|
  HeaderWPATID := "X-WebPA-Transaction-Id";
  HeaderWPASyncNewCID := "X-Webpa-Sync-New-Cid";
  HeaderWPASyncOldCID := "X-Webpa-Sync-Old-Cid";
  HeaderWPASyncCMC := "X-Webpa-Sync-Cmc";
  asCodedError e :=
    match e with
    | ErrEmptyNames | ErrMissingTable | ErrMissingRow | ErrMissingRows
    | ErrInvalidSetWDMP | ErrInvalidService => Some 400
    | ErrUnsupportedMethod => Some 405
    | _ => None
    end;
  Error_ e :=
    match e with
    | ErrEmptyNames => "names parameter is required"
    | ErrMissingTable => "table is required"
    | ErrMissingRow => "row is required"
    | ErrMissingRows => "rows are required"
    | ErrInvalidSetWDMP => "invalid set payload"
    | ErrInvalidService => "unsupported service"
    | ErrUnsupportedMethod => "unsupported method"
    | ErrTr1d1umInternal => "something unexpected went wrong"
    | Canceled => "context canceled"
    | DeadlineExceeded => "context deadline exceeded"
    | LibError msg => msg
    end;
  deduceSET v _ _ _ := (v, None);
  isValidSetWDMP _ := true;
  wrap payload tid vars :=
    ({| Source := "tr1d1um";
        Destination := var vars "deviceid" +:+ "/" +:+ var vars "service";
        TransactionUUID := tid; ContentType := "application/json";
        Payload := payload |}, None);
  ReportError e w :=
    match e with
    | Some _ => WriteHeader StatusInternalServerError w
    | None => w
    end;
  ExtractPayload := ReadAll;
  GetStatusCodeFromRDKResponse data :=
    if decide (data = bytes (object [field "statusCode" "404"]))
    then (404, None)
    else (500, Some (LibError "no status code"))
|}.

Definition ctx : Context :=
  {| RequestTID := Some "tid-1"; TrackerFromContext := None |}.

Definition tracedCtx : Context :=
  {| RequestTID := Some "tid-1"; TrackerFromContext := Some () |}.

(** A backend response with status 200 whose envelope carries the
    payload [{"statusCode":404}]. *)
Definition notFoundPayload : list byte :=
  bytes (object [field "statusCode" "404"]).

Definition notFound : XmidtResponse :=
  {| xBody := notFoundPayload;
     ForwardedHeaders := {[ "X-Boot-Time" := ["17"];
                            "Content-Type" := ["application/msgpack"] ]};
     Code := 200 |}.

(** The same response, with a transaction id of the backend's own
    among its headers. *)
Definition withBackendTid : XmidtResponse :=
  {| xBody := notFoundPayload;
     ForwardedHeaders := {[ "X-Boot-Time" := ["17"];
                            "X-Webpa-Transaction-Id" := ["backend-tid"] ]};
     Code := 200 |}.

(** A backend response with status 503. *)
Definition unavailableBody : list byte :=
  bytes (object [field "error" (quote "unavailable")]).

Definition unavailable : XmidtResponse :=
  {| xBody := unavailableBody;
     ForwardedHeaders := {[ "X-Boot-Time" := ["17"] ]};
     Code := 503 |}.

(** A response of the server with status 502 whose body breaks off. *)
Definition brokenBody : Response :=
  {| StatusCode := 502; Status := "502 Bad Gateway";
     Header_ := {[ "X-Boot-Time" := ["17"] ]};
     Body := {| rd_data := bytes "{"; rd_err := Some (LibError "unexpected EOF") |} |}.

(** The same two responses as [HandleResponse] gets them from the
    server. *)
Definition unavailableFromServer : Response :=
  {| StatusCode := 503; Status := "503 Service Unavailable";
     Header_ := {[ "X-Boot-Time" := ["17"];
                   "Content-Type" := ["application/json"] ]};
     Body := {| rd_data := unavailableBody; rd_err := None |} |}.

Definition notFoundFromServer : Response :=
  {| StatusCode := 200; Status := "200 OK";
     Header_ := {[ "X-Boot-Time" := ["17"] ]};
     Body := {| rd_data := notFoundPayload; rd_err := None |} |}.

Definition noBody : Reader := {| rd_data := []; rd_err := None |}.

(** GET /device/mac:112233445566/config *)
Definition getNoNames : Request :=
  {| Method := "GET";
     Vars := {[ "deviceid" := "mac:112233445566"; "service" := "config" ]};
     Form := ∅; ReqHeader := ∅; ReqBody := noBody |}.

(** GET /device/mac:112233445566/config?names=foo,bar&attributes=notify *)
Definition getTwoNames : Request :=
  {| Method := "GET";
     Vars := {[ "deviceid" := "mac:112233445566"; "service" := "config" ]};
     Form := {[ "names" := ["foo,bar"]; "attributes" := ["notify"] ]};
     ReqHeader := ∅; ReqBody := noBody |}.

(** GET /device/mac:112233445566/config?names=foo&attributes= *)
Definition getEmptyAttributes : Request :=
  {| Method := "GET";
     Vars := {[ "deviceid" := "mac:112233445566"; "service" := "config" ]};
     Form := {[ "names" := ["foo"]; "attributes" := [""] ]};
     ReqHeader := ∅; ReqBody := noBody |}.

(** POST /device/mac:112233445566/iot/extra with the body [{}] *)
Definition postIotExtra : Request :=
  {| Method := "POST";
     Vars := {[ "deviceid" := "mac:112233445566"; "service" := "iot";
                "parameter" := "extra" ]};
     Form := ∅; ReqHeader := ∅;
     ReqBody := {| rd_data := bytes "{}"; rd_err := None |} |}.

(** DELETE /device/mac:112233445566/config/rowX *)
Definition deleteRowX : Request :=
  {| Method := "DELETE";
     Vars := {[ "deviceid" := "mac:112233445566"; "service" := "config";
                "parameter" := "rowX" ]};
     Form := ∅; ReqHeader := ∅; ReqBody := noBody |}.

(** PUT /device/mac:112233445566/config/table with the body [[{}]] *)
Definition putRows : Request :=
  {| Method := "PUT";
     Vars := {[ "deviceid" := "mac:112233445566"; "service" := "config";
                "parameter" := "table" ]};
     Form := ∅; ReqHeader := ∅;
     ReqBody := {| rd_data := bytes "[{}]"; rd_err := None |} |}.

(** A request whose method is written in small letters. *)
Definition getInSmallLetters : Request :=
  {| Method := "get";
     Vars := {[ "deviceid" := "mac:112233445566"; "service" := "config" ]};
     Form := {[ "names" := ["foo"] ]}; ReqHeader := ∅; ReqBody := noBody |}.

(** A response of the server with status 200 and a body that is no
    envelope: no bytes at all. *)
Definition emptyOK : XmidtResponse :=
  {| xBody := []; ForwardedHeaders := {[ "X-Boot-Time" := ["17"] ]};
     Code := 200 |}.

(** The conversion handler and the sender of the examples: the
    message is sent as its payload, and the server always answers. *)
#[export] Instance conversion : communication.Conversion string := {|
  communication.baseURI := "/api";
  communication.targetURL := "https://xmidt.example.net";
  communication.serverVersion := "v2";
  communication.GetConfiguredWRP data vars _ :=
    {| Source := "tr1d1um";
       Destination := var vars "deviceid" +:+ "/" +:+ var vars "service";
       TransactionUUID := ""; ContentType := "application/json";
       Payload := data |};
  communication.GenericEncode m := (Payload m, None);
  communication.JSONContentType := "application/json";
  communication.NewHTTPRequest method url data :=
    (Some {| communication.srv_Method := method;
             communication.srv_URL := url;
             communication.srv_Header := ∅;
             communication.srv_Body := data |}, None);
  communication.PerformRequest _ := (Some "response", None)
|}.

(** The same with an encoding tool that fails. *)
Definition brokenEncoder : communication.Conversion string := {|
  communication.baseURI := "/api";
  communication.targetURL := "https://xmidt.example.net";
  communication.serverVersion := "v2";
  communication.GetConfiguredWRP :=
    communication.GetConfiguredWRP (Conversion:=conversion);
  communication.GenericEncode _ := ([], Some (LibError "unsupported type"));
  communication.JSONContentType := "application/json";
  communication.NewHTTPRequest :=
    communication.NewHTTPRequest (Conversion:=conversion);
  communication.PerformRequest _ := (Some "response", None)
|}.

(** PATCH /device/mac:112233445566/config with an Authorization
    header. *)
Definition patchWithAuth : Request :=
  {| Method := "PATCH";
     Vars := {[ "deviceid" := "mac:112233445566"; "service" := "config" ]};
     Form := ∅; ReqHeader := {[ "Authorization" := ["Basic dXNlcg=="] ]};
     ReqBody := {| rd_data := bytes "{}"; rd_err := None |} |}.

End example.

(** * Properties *)

#[local] Arguments common.ForwardHeadersByPrefix : simpl never.
#[local] Arguments common.forwardRange : simpl never.
#[local] Arguments http.Write : simpl never.
#[local] Arguments http.WriteHeader : simpl never.
#[local] Arguments http.Set_ : simpl never.
#[local] Arguments http.Add : simpl never.

(** ** Header forwarding *)

Section Forwarding.

Import http common.

Lemma Add_values (key : string) (values : list string) (w : Header) :
  foldl (λ h v, Add key v h) w values
  = match values with
    | [] => w
    | _ => <[key := default [] (w !! key) ++ values]> w
    end.
Proof.
  revert w. induction values as [|v values IH]; intros w; [done|].
  simpl. rewrite IH. unfold Add. destruct values as [|v' values]; [done|].
  rewrite lookup_insert_eq. simpl. rewrite insert_insert_eq.
  by rewrite <- app_assoc.
Qed.

Lemma forwardEntry_lookup p w key values k :
  forwardEntry p w (key, values) !! k
  = if decide (k = key) then forwarded p key values (w !! k) else w !! k.
Proof.
  unfold forwardEntry, forwarded. simpl.
  destruct (strings.HasPrefix key p); [|by case_decide].
  rewrite Add_values. destruct values as [|v values]; [by case_decide|].
  case_decide as Hk.
  - subst k. by rewrite lookup_insert_eq.
  - by rewrite lookup_insert_ne.
Qed.

Lemma forwardRange_lookup_notin order p w k :
  k ∉ order.*1 → forwardRange order p w !! k = w !! k.
Proof.
  unfold forwardRange. revert w.
  induction order as [|[key values] order IH]; intros w Hk; [done|].
  simpl in *. apply not_elem_of_cons in Hk as [Hne Hk].
  rewrite IH by done. rewrite forwardEntry_lookup. by case_decide.
Qed.

Lemma forwardRange_lookup order p w k values :
  NoDup order.*1 → (k, values) ∈ order →
  forwardRange order p w !! k = forwarded p k values (w !! k).
Proof.
  unfold forwardRange. revert w.
  induction order as [|[key vs] order IH]; intros w Hnd Hin.
  - by apply elem_of_nil in Hin.
  - simpl in *. apply NoDup_cons in Hnd as [Hfresh Hnd].
    apply elem_of_cons in Hin as [Heq|Hin].
    + inversion Heq; subst key vs.
      fold (forwardRange order p (forwardEntry p w (k, values))).
      rewrite forwardRange_lookup_notin by done.
      rewrite forwardEntry_lookup. by case_decide.
    + rewrite IH by done. rewrite forwardEntry_lookup.
      case_decide as Hk; [|done]. subst key. exfalso. apply Hfresh.
      apply list_elem_of_fmap. by exists (k, values).
Qed.

(** The headers after forwarding, key by key: the order in which the
    loop visits the map plays no part. *)
Lemma forwardRange_spec order (h : Header) p w k :
  order ≡ₚ map_to_list h →
  forwardRange order p w !! k
  = match h !! k with
    | Some values => forwarded p k values (w !! k)
    | None => w !! k
    end.
Proof.
  intros Hperm.
  assert (NoDup order.*1) as Hnd.
  { rewrite Hperm. apply NoDup_fst_map_to_list. }
  destruct (h !! k) as [values|] eqn:Hk.
  - apply forwardRange_lookup; [done|].
    rewrite Hperm. by apply elem_of_map_to_list.
  - apply forwardRange_lookup_notin. rewrite Hperm.
    intros Hin. apply list_elem_of_fmap in Hin as [[k' vs] [-> Hin]].
    apply elem_of_map_to_list in Hin. simpl in *. congruence.
Qed.


Lemma ForwardHeadersByPrefix_lookup p (h : Header) w k :
  ForwardHeadersByPrefix p (Some h) w !! k
  = match h !! k with
    | Some values => forwarded p k values (w !! k)
    | None => w !! k
    end.
Proof. by apply forwardRange_spec. Qed.

End Forwarding.

(** ** Response translation: [encodeResponse] *)

Section ResponseTranslation.

Import http common translation communication.

Context {J : Json} {W : Wrp} {D : Declared} {M : Money} {MO : MoneyOps}.

Lemma Write_code b w c : code w = Some c → code (Write b w) = Some c.
Proof. intros Hc. unfold Write, WriteHeader. by rewrite Hc. Qed.

Lemma Write_code_unwritten b w : code w = None → code (Write b w) = Some StatusOK.
Proof. intros Hc. unfold Write, WriteHeader. by rewrite Hc. Qed.

Lemma Write_body b w : body (Write b w) = body w ++ b.
Proof. unfold Write, WriteHeader. by destruct (code w). Qed.

Lemma Write_header b w : header (Write b w) = header w.
Proof. unfold Write, WriteHeader. by destruct (code w). Qed.

Lemma WriteHeader_code c w : code w = None → code (WriteHeader c w) = Some c.
Proof. intros Hc. unfold WriteHeader. by rewrite Hc. Qed.

Lemma WriteHeader_body c w : body (WriteHeader c w) = body w.
Proof. unfold WriteHeader. by destruct (code w). Qed.

Lemma WriteHeader_header c w : header (WriteHeader c w) = header w.
Proof. unfold WriteHeader. by destruct (code w). Qed.

(** [Set] works on the canonical form of its key. *)
Lemma Set_lookup key value (h : Header) k :
  Set_ key value h !! k
  = if decide (k = CanonicalHeaderKey key) then Some [value] else h !! k.
Proof.
  unfold Set_. case_decide as Hk.
  - subst k. by rewrite lookup_insert_eq.
  - by rewrite lookup_insert_ne.
Qed.

Lemma canonical_Content_Type : CanonicalHeaderKey "Content-Type" = "Content-Type".
Proof. reflexivity. Qed.

(** The non-OK branch of [encodeResponse], for any order of visit. *)
Lemma encodeResponseRange_non_ok order ctx w resp tid :
  RequestTID ctx = Some tid → Code resp ≠ StatusOK →
  encodeResponseRange order ctx w resp
  = Some (Write (xBody resp)
            (WriteHeader (Code resp)
               (with_header (Set_ HeaderWPATID tid)
                  (with_header (forwardRange order "") w))), None).
Proof.
  intros Htid Hcode. unfold encodeResponseRange. rewrite Htid. simpl.
  by rewrite decide_True.
Qed.


(** C3.  A backend response whose status is not 200 is mirrored: the
    caller gets the backend's status code and the backend's body byte
    for byte; no decoder is consulted (the result is the same for every
    envelope and JSON decoder, and for every tracer); Content-Type is
    not set by the translator: it is what header forwarding left.  This
    holds for [encodeResponse] and, when the body can be read, for
    [HandleResponse]. *)
Theorem non_ok_response_mirrored :
  (∀ ctx w resp tid,
     RequestTID ctx = Some tid → Code resp ≠ StatusOK → unwritten w →
     ∃ w', encodeResponse ctx w resp = Some (w', None)
       ∧ code w' = Some (Code resp)
       ∧ body w' = xBody resp
       ∧ header w'
         = Set_ HeaderWPATID tid
             (ForwardHeadersByPrefix "" (Some (ForwardedHeaders resp))
                (header w))
       ∧ (CanonicalHeaderKey HeaderWPATID ≠ "Content-Type" →
          header w' !! "Content-Type"
          = ForwardHeadersByPrefix "" (Some (ForwardedHeaders resp))
              (header w) !! "Content-Type")
       ∧ (∀ (J' : Json) (W' : Wrp) (MO' : MoneyOps),
            encodeResponse (J:=J') (W:=W') (MO:=MO') ctx w resp
            = Some (w', None)))
  ∧ (∀ resp origin wholeBody data,
       StatusCode resp ≠ StatusOK → unwritten origin →
       ReadAll (Body resp) = (data, None) →
       ∃ w' log,
         HandleResponse None (Some resp) origin wholeBody = Some (w', log)
         ∧ code w' = Some (StatusCode resp)
         ∧ body w' = data
         ∧ header w'
           = ForwardHeadersByPrefix "X" (Some (Header_ resp)) (header origin)
         ∧ header w' !! "Content-Type" = header origin !! "Content-Type"
         ∧ (∀ D' : Declared,
              HandleResponse (D:=D') None (Some resp) origin wholeBody
              = Some (w', log))).
Proof.
  split.
  - intros ctx w resp tid Htid Hcode [Hw Hb]. eexists. split.
    { unfold encodeResponse. by apply encodeResponseRange_non_ok. }
    rewrite Write_body, WriteHeader_body, Write_header, WriteHeader_header.
    split; [by apply Write_code, WriteHeader_code|].
    split; [simpl; by rewrite Hb|].
    split; [done|].
    split.
    + intros Hne. simpl. rewrite Set_lookup. by rewrite decide_False.
    + intros J' W' MO'. unfold encodeResponse, encodeResponseRange.
      rewrite Htid. simpl. by rewrite decide_True.
  - intros resp origin wholeBody data Hcode [Hw Hb] Hread.
    unfold ReadAll in Hread. injection Hread as Hdata Herr.
    unfold HandleResponse, ReadAll. simpl. rewrite decide_True by done.
    rewrite Herr, Hdata. do 2 eexists. split; [done|].
    rewrite Write_body, WriteHeader_body, Write_header, WriteHeader_header.
    split; [by apply Write_code, WriteHeader_code|].
    split; [simpl; by rewrite Hb|].
    split; [done|].
    split.
    + simpl. rewrite ForwardHeadersByPrefix_lookup.
      destruct (Header_ resp !! "Content-Type"); done.
    + intros D'. by rewrite decide_True.
Qed.

(** C10.  When the body of a backend response whose status is not 200
    cannot be read, [HandleResponse] still writes the backend's status
    code, with no body at all; the read error (and what was read before
    it) appears neither in the response nor in the log, and
    [ReportError] is not called (the result is the same for every
    [ReportError]). *)
Theorem unreadable_body_discarded resp origin wholeBody e :
  StatusCode resp ≠ StatusOK → rd_err (Body resp) = Some e →
  unwritten origin →
  ∃ w',
    HandleResponse None (Some resp) origin wholeBody
    = Some (w', [LogNon200 (Status resp)])
    ∧ code w' = Some (StatusCode resp)
    ∧ body w' = []
    ∧ header w'
      = ForwardHeadersByPrefix "X" (Some (Header_ resp)) (header origin)
    ∧ (∀ (D' : Declared) e' data',
         HandleResponse (D:=D') None
           (Some {| StatusCode := StatusCode resp; Status := Status resp;
                    Header_ := Header_ resp;
                    Body := {| rd_data := data'; rd_err := Some e' |} |})
           origin wholeBody
         = Some (w', [LogNon200 (Status resp)])).
Proof.
  intros Hcode Herr [Hw Hb]. unfold HandleResponse, ReadAll. simpl.
  rewrite decide_True by done. rewrite Herr. eexists. split; [done|].
  rewrite Write_body, WriteHeader_body, Write_header, WriteHeader_header.
  split; [by apply Write_code, WriteHeader_code|].
  split; [simpl; by rewrite Hb|].
  split; [done|].
  intros D' e' data'. by rewrite decide_True.
Qed.


Lemma encodeResponse_ok ctx w resp tid msg statusCode errUnmarshall :
  RequestTID ctx = Some tid → Code resp = StatusOK →
  DecodeMsgpack (xBody resp) = (msg, None) →
  UnmarshalStatusCode (Payload msg) = (statusCode, errUnmarshall) →
  encodeResponse ctx w resp
  = Some (match TrackerFromContext ctx with
          | Some tracker =>
              WriteSpansHeaderTr1d1um (Finish tracker)
                (unwrapped w tid resp msg statusCode errUnmarshall) resp
          | None => unwrapped w tid resp msg statusCode errUnmarshall
          end, None).
Proof.
  intros Htid Hcode Hmsg Hsc. unfold encodeResponse, encodeResponseRange.
  rewrite Htid. simpl. rewrite decide_False by (by intros []).
  rewrite Hmsg, Hsc. unfold unwrapped, ForwardHeadersByPrefix.
  destruct errUnmarshall as [e|].
  - rewrite decide_False by (by intros [? _]). done.
  - destruct (decide (statusCode ≠ 0
                      ∧ statusCode ≠ StatusInternalServerError)).
    + by rewrite decide_True.
    + rewrite decide_False by (by intros [_ ?]). done.
Qed.

Lemma encodeResponse_undecodable ctx w resp tid msg e :
  RequestTID ctx = Some tid → Code resp = StatusOK →
  DecodeMsgpack (xBody resp) = (msg, Some e) →
  encodeResponse ctx w resp
  = Some (let w :=
            with_header (Set_ HeaderWPATID tid)
              (with_header
                 (ForwardHeadersByPrefix "" (Some (ForwardedHeaders resp)))
                 w) in
          match TrackerFromContext ctx with
          | Some tracker => WriteSpansHeaderTr1d1um (Finish tracker) w resp
          | None => w
          end, Some e).
Proof.
  intros Htid Hcode Hmsg. unfold encodeResponse, encodeResponseRange.
  rewrite Htid. simpl. rewrite decide_False by (by intros []).
  by rewrite Hmsg.
Qed.

(** C2.  A backend response with status 200 whose body decodes as an
    envelope: the status the caller gets is the [statusCode] of the
    payload when the payload is JSON and has one that is neither 0 nor
    500, and 200 otherwise; the body the caller gets is the payload of
    the envelope.  For [HandleResponse] the same holds of the code that
    [GetStatusCodeFromRDKResponse] reports for the payload. *)
Theorem device_status_code_used :
  (∀ ctx w resp tid msg statusCode errUnmarshall,
     RequestTID ctx = Some tid → Code resp = StatusOK →
     DecodeMsgpack (xBody resp) = (msg, None) →
     UnmarshalStatusCode (Payload msg) = (statusCode, errUnmarshall) →
     unwritten w → spansKeepResponse ctx →
     ∃ w', encodeResponse ctx w resp = Some (w', None)
       ∧ code w'
         = Some (if decide (errUnmarshall = None ∧ statusCode ≠ 0
                            ∧ statusCode ≠ 500)
                 then statusCode else 200)
       ∧ body w' = Payload msg)
  ∧ (∀ resp origin payload rdkCode rdkErr,
       StatusCode resp = StatusOK →
       ExtractPayload (Body resp) = (payload, None) →
       GetStatusCodeFromRDKResponse payload = (rdkCode, rdkErr) →
       unwritten origin →
       ∃ w', HandleResponse None (Some resp) origin false = Some (w', [])
         ∧ code w'
           = Some (if decide (rdkErr = None ∧ rdkCode ≠ 500)
                   then rdkCode else 200)
         ∧ body w' = payload).
Proof.
  split.
  - intros ctx w resp tid msg sc ue Htid Hcode Hmsg Hsc [Hw Hb] Hkeep.
    eexists. split; [by apply encodeResponse_ok|].
    assert (code (unwrapped w tid resp msg sc ue)
            = Some (if decide (ue = None ∧ sc ≠ 0 ∧ sc ≠ 500)
                    then sc else 200)
            ∧ body (unwrapped w tid resp msg sc ue) = Payload msg)
      as [Hc Hbody].
    { unfold unwrapped. rewrite Write_body. split.
      - unfold StatusInternalServerError. case_decide.
        + by apply Write_code, WriteHeader_code.
        + by apply Write_code_unwritten.
      - case_decide; rewrite ?WriteHeader_body; simpl; by rewrite Hb. }
    destruct (TrackerFromContext ctx) as [tracker|] eqn:Htr; [|done].
    destruct (Hkeep tracker (unwrapped w tid resp msg sc ue) resp Htr)
      as [-> ->]. done.
  - intros resp origin payload c cerr Hcode Hpayload Hc [Hw Hb].
    unfold HandleResponse. simpl. rewrite decide_False by (by intros []).
    rewrite Hpayload, Hc. eexists. split; [done|].
    rewrite Write_body. unfold StatusInternalServerError. split.
    + case_decide.
      * by apply Write_code, WriteHeader_code.
      * by apply Write_code_unwritten.
    + case_decide; rewrite ?WriteHeader_body; simpl; by rewrite Hb.
Qed.


Lemma unwrapped_header w tid resp msg statusCode errUnmarshall :
  header (unwrapped w tid resp msg statusCode errUnmarshall)
  = Set_ "Content-Type" jsonContentType
      (Set_ HeaderWPATID tid
         (ForwardHeadersByPrefix "" (Some (ForwardedHeaders resp))
            (header w))).
Proof.
  unfold unwrapped. rewrite Write_header.
  case_decide; by rewrite ?WriteHeader_header.
Qed.

(** C8.  The headers of every caller-facing response.
    For backend headers with names in canonical form, as net/http
    leaves them: [ForwardHeadersByPrefix] copies the values of exactly
    those whose name has the prefix, and leaves every other header of
    the caller's response as it was.  [encodeResponse] forwards with the
    empty prefix whatever the status, then sets the transaction id
    under the canonical form of its header name: every header the
    tracer leaves alone is the forwarded one, but for the transaction
    id, which is the one of the context alone (a transaction id that
    the backend sent under that name is replaced), and for Content-Type
    on an unwrapped envelope, which is JSON.  [encodeError] sets the
    transaction id as well. *)
Theorem headers_forwarded_and_tid_set :
  (∀ p (h w : Header) k,
     canonicalKeys h →
     ForwardHeadersByPrefix p (Some h) w !! k
     = match h !! k with
       | Some values =>
           if strings.HasPrefix k p
           then match values with
                | [] => w !! k
                | _ => Some (default [] (w !! k) ++ values)
                end
           else w !! k
       | None => w !! k
       end)
  ∧ (∀ ctx w resp tid,
       RequestTID ctx = Some tid →
       canonicalKeys (ForwardedHeaders resp) →
       ∃ w' err,
         encodeResponse ctx w resp = Some (w', err)
         ∧ ∀ k, spansKeepHeader ctx k →
             header w' !! k
             = if decide (k = "Content-Type" ∧ Code resp = StatusOK
                          ∧ err = None)
               then Some [jsonContentType]
               else if decide (k = CanonicalHeaderKey HeaderWPATID)
               then Some [tid]
               else ForwardHeadersByPrefix "" (Some (ForwardedHeaders resp))
                      (header w) !! k)
  ∧ (∀ ctx err w tid,
       RequestTID ctx = Some tid →
       CanonicalHeaderKey HeaderWPATID ≠ "Content-Type" →
       ∃ w', encodeError ctx err w = Some w'
         ∧ header w' !! CanonicalHeaderKey HeaderWPATID = Some [tid]
         ∧ header w' !! "Content-Type" = Some [jsonContentType]).
Proof.
  split; [|split].
  - intros p h w k _. rewrite ForwardHeadersByPrefix_lookup.
    by destruct (h !! k).
  - intros ctx w resp tid Htid _.
    destruct (decide (Code resp = StatusOK)) as [Hok|Hno].
    + destruct (DecodeMsgpack (xBody resp)) as [msg [e|]] eqn:Hmsg.
      * do 2 eexists. split; [by eapply encodeResponse_undecodable|].
        intros k Hkeep.
        rewrite decide_False by (by intros (_ & _ & ?)).
        destruct (TrackerFromContext ctx) as [tracker|] eqn:Htr;
          [rewrite (Hkeep _ _ _ Htr)|]; simpl; by rewrite Set_lookup.
      * destruct (UnmarshalStatusCode (Payload msg)) as [sc ue] eqn:Hsc.
        do 2 eexists. split; [by eapply encodeResponse_ok|].
        intros k Hkeep.
        assert (header (unwrapped w tid resp msg sc ue) !! k
                = if decide (k = "Content-Type" ∧ Code resp = StatusOK
                             ∧ @None error = None)
                  then Some [jsonContentType]
                  else if decide (k = CanonicalHeaderKey HeaderWPATID)
                  then Some [tid]
                  else ForwardHeadersByPrefix ""
                         (Some (ForwardedHeaders resp)) (header w) !! k)
          as Hh.
        { rewrite unwrapped_header, !Set_lookup, canonical_Content_Type.
          destruct (decide (k = "Content-Type")) as [->|Hct].
          - by rewrite decide_True.
          - destruct (decide (k = "Content-Type" ∧ Code resp = StatusOK
                              ∧ @None error = None)) as [[? _]|_]; done. }
        destruct (TrackerFromContext ctx) as [tracker|] eqn:Htr;
          [rewrite (Hkeep _ _ _ Htr)|]; done.
    + exists (Write (xBody resp)
                (WriteHeader (Code resp)
                   (with_header (Set_ HeaderWPATID tid)
                      (with_header
                         (ForwardHeadersByPrefix ""
                            (Some (ForwardedHeaders resp))) w)))), None.
      split; [unfold encodeResponse; by apply encodeResponseRange_non_ok|].
      intros k _. rewrite decide_False by (by intros (_ & ? & _)).
      rewrite Write_header, WriteHeader_header. simpl.
      by rewrite Set_lookup.
  - intros ctx err w tid Htid Hne. unfold encodeError. rewrite Htid. simpl.
    destruct (asCodedError err); eexists; (split; [done|]);
      rewrite Write_header, WriteHeader_header; simpl;
      rewrite !Set_lookup;
      unfold contentTypeHeaderKey; rewrite canonical_Content_Type;
      rewrite decide_True by done;
      rewrite decide_False by (intros Heq; by apply Hne);
      by rewrite decide_True.
Qed.


(** C7.  [encodeError]: an error that is a coded error is answered with
    its own status code and its own message; any other error is
    answered with status 500 and the message of [ErrTr1d1umInternal],
    whatever the error was.  The body is what the JSON encoder writes
    for the map with the one key "message". *)
Theorem encodeError_classifies ctx err w tid :
  RequestTID ctx = Some tid → unwritten w →
  ∃ w', encodeError ctx err w = Some w'
    ∧ match asCodedError err with
      | Some statusCode =>
          code w' = Some statusCode
          ∧ body w' = EncodeMessage (Error_ err)
      | None =>
          code w' = Some 500
          ∧ body w' = EncodeMessage (Error_ ErrTr1d1umInternal)
          ∧ ∀ err', asCodedError err' = None →
              encodeError ctx err' w = Some w'
      end.
Proof.
  intros Htid [Hw Hb]. unfold encodeError. rewrite Htid. simpl.
  destruct (asCodedError err) as [statusCode|] eqn:Hcoded.
  - eexists. split; [done|]. split.
    + by apply Write_code, WriteHeader_code.
    + rewrite Write_body, WriteHeader_body. simpl. by rewrite Hb.
  - eexists. split; [done|]. split; [|split].
    + apply Write_code. by apply (WriteHeader_code 500).
    + rewrite Write_body, WriteHeader_body. simpl. by rewrite Hb.
    + intros err' ->. done.
Qed.

End ResponseTranslation.

(** ** Request decoding *)

Section RequestDecoding.

Import http common translation kithttp.

Context {J : Json} {W : Wrp} {D : Declared} {M : Money} {MO : MoneyOps}.

Lemma Split_nonempty s sep : strings.Split s sep ≠ [].
Proof.
  destruct s as [|c s]; simpl; [done|].
  destruct (Ascii.eqb c sep); [done|].
  by destruct (strings.Split s sep).
Qed.

(** Joining the pieces with the separator gives the string back. *)
Lemma Join_Split s sep : strings.Join (strings.Split s sep) sep = s.
Proof.
  induction s as [|c s IH]; [done|]. simpl.
  destruct (Ascii.eqb c sep) eqn:Hc.
  - apply Ascii.eqb_eq in Hc as ->.
    pose proof (Split_nonempty s sep).
    destruct (strings.Split s sep) as [|piece pieces] eqn:Hs; [done|].
    simpl. by rewrite <- IH.
  - pose proof (Split_nonempty s sep).
    destruct (strings.Split s sep) as [|piece pieces] eqn:Hs; [done|].
    rewrite <- IH. by destruct pieces.
Qed.

(** No piece holds a separator. *)
Lemma Split_pieces s sep :
  Forall (λ piece, strings.Count piece sep = O) (strings.Split s sep).
Proof.
  induction s as [|c s IH]; simpl; [by repeat constructor|].
  destruct (Ascii.eqb c sep) eqn:Hc; [by constructor|].
  destruct (strings.Split s sep) as [|piece pieces].
  - repeat constructor. simpl. by rewrite Hc.
  - inversion IH; subst. constructor; [|done]. simpl. by rewrite Hc.
Qed.

Lemma Split_length s sep :
  length (strings.Split s sep) = S (strings.Count s sep).
Proof.
  induction s as [|c s IH]; simpl; [done|].
  destruct (Ascii.eqb c sep); simpl; [by rewrite IH|].
  destruct (strings.Split s sep); simpl in *; done.
Qed.

Lemma FormValue_missing key r : Form r !! key = None → FormValue key r = "".
Proof. intros Hk. unfold FormValue. by rewrite Hk. Qed.

Lemma requestPayload_get r :
  Method r = MethodGet →
  requestPayload r
  = requestGetPayload (FormValue "names" r) (FormValue "attributes" r).
Proof. intros Hm. unfold requestPayload. by rewrite decide_True. Qed.

(** A decoder that fails keeps the request from the endpoint. *)
Lemma ServeHTTP_decode_error {Req Resp : Type}
    (e : Req → Resp * option error) dec enc errorEncoder ctx w r request err :
  dec ctx r = Some (request, Some err) →
  ServeHTTP e dec enc errorEncoder ctx w r
  = w' ← errorEncoder ctx err w; Some (w', []).
Proof. intros Hdec. unfold ServeHTTP. by rewrite Hdec. Qed.

(** C4 (as amended).  A GET request whose [names] parameter is missing
    or empty fails to decode with [ErrEmptyNames], and the server answers
    it through the error encoder without calling the endpoint.  For any
    other value of [names] the command marshalled has the pieces of
    [names] between its commas as names, and is the get-attributes
    command carrying the attributes exactly when the value of the
    [attributes] parameter is not empty. *)
Theorem get_names_and_attributes (r : Request) :
  Method r = MethodGet →
  let names := FormValue "names" r in
  let attributes := FormValue "attributes" r in
  (Form r !! "names" = None → names = "")
  ∧ (names = "" →
     requestPayload r = ([], Some ErrEmptyNames)
     ∧ (∀ ctx, decodeRequest ctx r = Some (None, Some ErrEmptyNames))
     ∧ (∀ (e : wrpRequest → XmidtResponse * option error) enc
          errorEncoder ctx w,
          ServeHTTP e decodeRequest enc errorEncoder ctx w r
          = w' ← errorEncoder ctx ErrEmptyNames w; Some (w', [])))
  ∧ (names ≠ "" →
     requestPayload r
     = Marshal (GetWDMP
                  {| get_Command :=
                       if decide (attributes = "") then CommandGet
                       else CommandGetAttrs;
                     get_Names := strings.Split names ",";
                     get_Attributes := attributes |})
     ∧ strings.Join (strings.Split names ",") "," = names
     ∧ Forall (λ name, strings.Count name "," = O)
              (strings.Split names ",")).
Proof.
  intros Hm names attributes. split; [|split].
  - apply FormValue_missing.
  - intros Hnames.
    assert (requestPayload r = ([], Some ErrEmptyNames)) as Hp.
    { rewrite requestPayload_get by done. unfold requestGetPayload.
      by rewrite decide_True. }
    assert (∀ ctx, decodeRequest ctx r = Some (None, Some ErrEmptyNames))
      as Hdec.
    { intros ctx. unfold decodeRequest. by rewrite Hp. }
    split; [done|]. split; [done|].
    intros e enc errorEncoder ctx w.
    by apply ServeHTTP_decode_error with (request := None).
  - intros Hnames. split; [|split].
    + rewrite requestPayload_get by done. unfold requestGetPayload.
      fold names attributes. rewrite decide_False by done.
      destruct (decide (attributes = "")) as [->|Ha].
      * by rewrite decide_False by (by intros ?).
      * by rewrite decide_True.
    + apply Join_Split.
    + apply Split_pieces.
Qed.

(** What the iot branch of [requestPayload] does for any path
    variables: the body is the payload unless there is a variable
    [parameters] that is not empty. *)
Lemma requestPayload_iot (r : Request) :
  Method r = MethodPost → var (Vars r) "service" = "iot" →
  requestPayload r
  = if decide (var (Vars r) "parameters" = "")
    then (rd_data (ReqBody r), rd_err (ReqBody r))
    else ([], Some ErrInvalidService).
Proof.
  intros Hm Hs. unfold requestPayload. rewrite Hm. simpl.
  by rewrite decide_True.
Qed.

(** No route of [ConfigHandler] binds a variable [parameters]. *)
Lemma route_no_parameters method path vars :
  route method path = Some vars → vars !! "parameters" = None.
Proof.
  unfold route. intros Hroute.
  repeat (match type of Hroute with
          | context [match ?x with _ => _ end] => destruct x; try done
          end);
    injection Hroute as <-; by simplify_map_eq.
Qed.

(** C5, the code on the POST requests to the iot service.  The third
    route of [ConfigHandler] binds a path segment after the service to
    the variable [parameter]; the iot branch of [requestPayload] looks
    for a variable [parameters], which no route binds.  So every routed
    POST request to the iot service has its body forwarded as it is,
    with or without a further path segment: none is refused with
    [ErrInvalidService]. *)
Theorem iot_request_never_refused (r : Request) path :
  Method r = MethodPost →
  route MethodPost path = Some (Vars r) →
  var (Vars r) "service" = "iot" →
  requestPayload r = (rd_data (ReqBody r), rd_err (ReqBody r)).
Proof.
  intros Hm Hroute Hs. rewrite requestPayload_iot by done.
  apply route_no_parameters in Hroute. unfold var. rewrite Hroute. done.
Qed.

(** C6 (as amended).  [requestReplacePayload]: without the path
    variable [parameter] the result is [ErrMissingTable] whatever the
    body (which is not read); with it, a body that cannot be read gives
    the read error, a body of no bytes gives [ErrMissingRows], a body
    that does not decode gives the decoder's error, and a body that
    decodes, to any list of rows, gives the replace-rows command of the
    table with these rows. *)
Theorem requestReplacePayload_spec (m : gmap string string) (input : Reader) :
  (m !! "parameter" = None →
   ∀ input', requestReplacePayload m input' = ([], Some ErrMissingTable))
  ∧ (∀ table, m !! "parameter" = Some table →
     requestReplacePayload m input
     = match rd_err input with
       | Some e => ([], Some e)
       | None =>
           match rd_data input with
           | [] => ([], Some ErrMissingRows)
           | _ =>
               match UnmarshalRows (rd_data input) with
               | (rows, None) =>
                   Marshal (ReplaceRowsWDMP
                              {| replace_Command := CommandReplaceRows;
                                 replace_Table := table;
                                 replace_Rows := rows |})
               | (_, Some e) => ([], Some e)
               end
           end
       end).
Proof.
  split.
  - intros Hm input'. unfold requestReplacePayload. by rewrite Hm.
  - intros table Hm. unfold requestReplacePayload, ReadAll. rewrite Hm.
    destruct (rd_err input); [done|].
    destruct (rd_data input) as [|b data]; [done|].
    rewrite decide_False by done.
    by destruct (UnmarshalRows (b :: data)) as [rows [e|]].
Qed.

End RequestDecoding.

(** ** Request execution: [PerformRequest] *)

Section RequestExecution.

Import communication.

Context {R : Type}.

Implicit Types (s : state (R:=R)) (r : clientResponse R).

(** Once the caller has returned, nothing changes what it returned. *)
Lemma returned_stable s s' r :
  callerAt s = Returned r → steps s s' → callerAt s' = Returned r.
Proof.
  intros Hret Hsteps. induction Hsteps as [|s1 s2 s3 [ev Hev] _ IH]; [done|].
  apply IH. clear IH.
  destruct ev; simpl in Hev;
    repeat (match type of Hev with
            | context [match ?x with _ => _ end] =>
                destruct x eqn:?; try done
            end);
    injection Hev as <-; simpl; congruence.
Qed.

(** Once the caller has returned, a goroutine that has not passed its
    send never will: it does not exit and the channel is never
    closed. *)
Lemma sender_never_exits s s' r :
  callerAt s = Returned r →
  goroutineAt s = InClientDo ∨ (∃ r', goroutineAt s = AtSend r') →
  closed s = false →
  steps s s' →
  (goroutineAt s' = InClientDo ∨ (∃ r', goroutineAt s' = AtSend r'))
  ∧ closed s' = false.
Proof.
  intros Hret Hg Hc Hsteps. revert r Hret Hg Hc.
  induction Hsteps as [|s1 s2 s3 [ev Hev] _ IH]; intros r Hret Hg Hc;
    [done|].
  assert (callerAt s2 = Returned r) as Hret2.
  { apply (returned_stable s1); [done|]. apply rtc_once. by exists ev. }
  apply (IH r Hret2); clear IH;
    destruct ev; simpl in Hev;
    repeat (match type of Hev with
            | context [match ?x with _ => _ end] =>
                destruct x eqn:?; try done
            end);
    injection Hev as <-; simpl; try done; try congruence; eauto;
    destruct Hg as [?|[? ?]]; congruence.
Qed.

(** C1, the code when the context is done before [client.Do] returns.
    The caller takes the case [<-ctx.Done()] and returns the error of
    the context while the goroutine is still in [client.Do]; when
    [client.Do] returns later, what the caller returned stays as it is,
    but the goroutine is at its send on a channel that has no buffer
    and no receiver any more: no event can happen, the goroutine has
    not exited and the channel is not closed. *)
Theorem cancelled_call_leaves_sender_blocked (e : error) r :
  ∃ s2 s3,
    run [CtxDone e; SelectCtxDone] start = Some s2
    ∧ callerAt s2 = Returned (mkClientResponse None (Some e))
    ∧ goroutineAt s2 = InClientDo
    ∧ exec (DoReturns r) s2 = Some s3
    ∧ callerAt s3 = Returned (mkClientResponse None (Some e))
    ∧ goroutineAt s3 = AtSend r
    ∧ closed s3 = false
    ∧ ∀ ev, exec ev s3 = None.
Proof.
  do 2 eexists. repeat split. intros ev. by destruct ev.
Qed.

(** The case [<-ctx.Done()] can be taken as soon as the context is
    done, wherever the goroutine is. *)
Lemma select_ctx_done_enabled s e :
  callerAt s = AtSelect → ctxErr s = Some e →
  ∃ s', exec SelectCtxDone s = Some s'
    ∧ callerAt s' = Returned (mkClientResponse None (Some e))
    ∧ goroutineAt s' = goroutineAt s.
Proof.
  intros Hc He. simpl. rewrite Hc, He. by eexists.
Qed.

(** When [client.Do] returns first, its result is what the caller
    returns, and the goroutine exits with the channel closed. *)
Lemma completed_call_returns_result r :
  ∃ s, run [DoReturns r; Handoff; Close] start = Some s
    ∧ callerAt s = Returned r ∧ goroutineAt s = Exited ∧ closed s = true.
Proof. by eexists. Qed.

End RequestExecution.

(** ** The theorems on concrete requests and responses *)

Section Examples.

Import http common translation kithttp communication example.

Lemma device_status_code_used_witness :
  (RequestTID tracedCtx = Some "tid-1" ∧ Code notFound = StatusOK
   ∧ unwritten newResponseWriter ∧ spansKeepResponse tracedCtx
   ∧ StatusCode notFoundFromServer = StatusOK)
  ∧ (∃ w', encodeResponse tracedCtx newResponseWriter notFound
           = Some (w', None)
       ∧ code w' = Some 404
       ∧ body w' = notFoundPayload)
  ∧ (∃ w', HandleResponse None (Some notFoundFromServer) newResponseWriter
             false = Some (w', [])
       ∧ code w' = Some 404
       ∧ body w' = notFoundPayload).
Proof.
  assert (spansKeepResponse tracedCtx) as Hkeep.
  { intros tracker w resp _. split; reflexivity. }
  split; [repeat split; assumption || reflexivity|]. split.
  - destruct (proj1 device_status_code_used tracedCtx newResponseWriter
                notFound "tid-1" (DecodeMsgpack notFoundPayload).1 404 None)
      as (w' & Hw' & Hcode & Hbody);
      [reflexivity | reflexivity | reflexivity | reflexivity
      | split; reflexivity | assumption |].
    exists w'. repeat split; assumption.
  - destruct (proj2 device_status_code_used notFoundFromServer
                newResponseWriter notFoundPayload 404 None)
      as (w' & Hw' & Hcode & Hbody);
      [reflexivity | reflexivity | reflexivity | split; reflexivity |].
    exists w'. repeat split; assumption.
Defined.

Lemma non_ok_response_mirrored_witness :
  (RequestTID ctx = Some "tid-1" ∧ Code unavailable ≠ StatusOK
   ∧ unwritten newResponseWriter
   ∧ StatusCode unavailableFromServer ≠ StatusOK
   ∧ ReadAll (Body unavailableFromServer) = (unavailableBody, None))
  ∧ (∃ w', encodeResponse ctx newResponseWriter unavailable = Some (w', None)
       ∧ code w' = Some 503
       ∧ body w' = unavailableBody)
  ∧ (∃ w' log,
       HandleResponse None (Some unavailableFromServer) newResponseWriter
         false = Some (w', log)
       ∧ code w' = Some 503
       ∧ body w' = unavailableBody
       ∧ header w' !! "Content-Type" = None
       ∧ header w' !! "X-Boot-Time" = Some ["17"]).
Proof.
  split; [repeat split; reflexivity || discriminate|]. split.
  - destruct (proj1 non_ok_response_mirrored ctx newResponseWriter
                unavailable "tid-1") as (w' & Hw' & Hcode & Hbody & _);
      [reflexivity | discriminate | split; reflexivity |].
    exists w'. repeat split; assumption.
  - destruct (proj2 non_ok_response_mirrored unavailableFromServer
                newResponseWriter false unavailableBody)
      as (w' & log & Hw' & Hcode & Hbody & Hheader & Hct & _);
      [discriminate | split; reflexivity | reflexivity |].
    exists w', log. repeat split; try assumption.
    rewrite Hheader. reflexivity.
Defined.

Lemma unreadable_body_discarded_witness :
  (StatusCode brokenBody ≠ StatusOK
   ∧ rd_err (Body brokenBody) = Some (LibError "unexpected EOF")
   ∧ unwritten newResponseWriter)
  ∧ ∃ w', HandleResponse None (Some brokenBody) newResponseWriter false
          = Some (w', [LogNon200 "502 Bad Gateway"])
      ∧ code w' = Some 502
      ∧ body w' = [].
Proof.
  split; [repeat split; reflexivity || discriminate|].
  destruct (unreadable_body_discarded brokenBody newResponseWriter false
              (LibError "unexpected EOF"))
    as (w' & Hw' & Hcode & Hbody & _);
    [discriminate | reflexivity | split; reflexivity |].
  exists w'. repeat split; assumption.
Defined.

Lemma headers_forwarded_and_tid_set_witness :
  (RequestTID tracedCtx = Some "tid-1"
   ∧ spansKeepHeader tracedCtx "X-Boot-Time"
   ∧ spansKeepHeader tracedCtx "X-Webpa-Transaction-Id"
   ∧ spansKeepHeader tracedCtx "X-WebPA-Transaction-Id"
   ∧ CanonicalHeaderKey HeaderWPATID = "X-Webpa-Transaction-Id"
   ∧ CanonicalHeaderKey HeaderWPATID ≠ "Content-Type"
   ∧ canonicalKeys (ForwardedHeaders withBackendTid))
  ∧ ForwardHeadersByPrefix "X-Boot" (Some (ForwardedHeaders withBackendTid))
      ∅ = {[ "X-Boot-Time" := ["17"] ]}
  ∧ (∃ w' err, encodeResponse tracedCtx newResponseWriter withBackendTid
               = Some (w', err)
       ∧ header w' !! "X-Boot-Time" = Some ["17"]
       ∧ header w' !! "X-Webpa-Transaction-Id" = Some ["tid-1"]
       ∧ header w' !! "X-WebPA-Transaction-Id" = None)
  ∧ (∃ w', encodeError tracedCtx DeadlineExceeded newResponseWriter = Some w'
       ∧ header w' !! "X-Webpa-Transaction-Id" = Some ["tid-1"]).
Proof.
  assert (∀ k, k ≠ "X-Money-Spans" → spansKeepHeader tracedCtx k) as Hkeep.
  { intros k Hk tracker w resp _. simpl. rewrite Set_lookup.
    destruct (decide (k = CanonicalHeaderKey "X-Money-Spans")) as [Heq|];
      [|reflexivity].
    exfalso. apply Hk. exact Heq. }
  assert (spansKeepHeader tracedCtx "X-Boot-Time") as Hboot.
  { apply Hkeep. discriminate. }
  assert (spansKeepHeader tracedCtx "X-Webpa-Transaction-Id") as Htid.
  { apply Hkeep. discriminate. }
  assert (spansKeepHeader tracedCtx "X-WebPA-Transaction-Id") as Hraw.
  { apply Hkeep. discriminate. }
  assert (canonicalKeys (ForwardedHeaders withBackendTid)) as Hcanonical.
  { apply map_Forall_insert_2; [reflexivity|].
    apply map_Forall_singleton. reflexivity. }
  split; [repeat split; assumption || reflexivity || discriminate|].
  split; [|split].
  - apply map_eq. intros k.
    rewrite (proj1 headers_forwarded_and_tid_set "X-Boot"
               (ForwardedHeaders withBackendTid) ∅ k Hcanonical).
    destruct (decide (k = "X-Boot-Time")) as [->|Hboot'];
      [reflexivity|].
    destruct (decide (k = "X-Webpa-Transaction-Id")) as [->|Htid'];
      [reflexivity|].
    change (ForwardedHeaders withBackendTid)
      with (<["X-Boot-Time" := ["17"]]>
              {[ "X-Webpa-Transaction-Id" := ["backend-tid"] ]} : Header).
    rewrite lookup_insert_ne, !lookup_singleton_ne by congruence.
    apply lookup_empty.
  - destruct (proj1 (proj2 headers_forwarded_and_tid_set) tracedCtx
                newResponseWriter withBackendTid "tid-1" eq_refl Hcanonical)
      as (w' & err & Hw' & Hheader).
    exists w', err. split; [assumption|].
    rewrite (Hheader "X-Boot-Time" Hboot),
      (Hheader "X-Webpa-Transaction-Id" Htid),
      (Hheader "X-WebPA-Transaction-Id" Hraw).
    split; [|split]; reflexivity.
  - destruct (proj2 (proj2 headers_forwarded_and_tid_set) tracedCtx
                DeadlineExceeded newResponseWriter "tid-1" eq_refl)
      as (w' & Hw' & Hheader & _); [discriminate|].
    exists w'. split; assumption.
Defined.


Lemma encodeError_classifies_witness :
  (RequestTID ctx = Some "tid-1" ∧ unwritten newResponseWriter)
  ∧ (∃ w', encodeError ctx ErrEmptyNames newResponseWriter = Some w'
       ∧ code w' = Some 400
       ∧ body w' = EncodeMessage "names parameter is required")
  ∧ (∃ w', encodeError ctx (LibError "dial tcp 10.0.0.7: refused")
             newResponseWriter = Some w'
       ∧ code w' = Some 500
       ∧ body w' = EncodeMessage "something unexpected went wrong").
Proof.
  split; [split; [|split]; reflexivity|]. split.
  - destruct (encodeError_classifies ctx ErrEmptyNames newResponseWriter
                "tid-1" eq_refl (conj eq_refl eq_refl))
      as (w' & Hw' & Hcode & Hbody).
    exists w'. repeat split; assumption.
  - destruct (encodeError_classifies ctx
                (LibError "dial tcp 10.0.0.7: refused") newResponseWriter
                "tid-1" eq_refl (conj eq_refl eq_refl))
      as (w' & Hw' & Hcode & Hbody & _).
    exists w'. repeat split; assumption.
Defined.

Lemma get_names_and_attributes_witness :
  (Method getTwoNames = MethodGet ∧ Method getNoNames = MethodGet)
  ∧ requestPayload getTwoNames
    = Marshal (GetWDMP {| get_Command := CommandGetAttrs;
                          get_Names := ["foo"; "bar"];
                          get_Attributes := "notify" |})
  ∧ requestPayload getNoNames = ([], Some ErrEmptyNames)
  ∧ ∀ e : wrpRequest → XmidtResponse * option error,
      snd <$> ServeHTTP e decodeRequest encodeResponse encodeError ctx
                newResponseWriter getNoNames
      = Some [].
Proof.
  split; [split; reflexivity|]. split; [|split].
  - destruct (get_names_and_attributes getTwoNames eq_refl)
      as (_ & _ & Hnames).
    destruct Hnames as (Hpayload & _ & _); [discriminate|].
    rewrite Hpayload. reflexivity.
  - destruct (get_names_and_attributes getNoNames eq_refl)
      as (_ & Hempty & _).
    destruct Hempty as (Hpayload & _ & _); [reflexivity|]. exact Hpayload.
  - intros e.
    destruct (get_names_and_attributes getNoNames eq_refl)
      as (_ & Hempty & _).
    destruct Hempty as (_ & _ & Hserve); [reflexivity|].
    rewrite Hserve. reflexivity.
Defined.

(** C4, the claim as it is written fails on a request that has the
    [attributes] parameter with an empty value: the parameter is
    present and the command is the plain get command. *)
Lemma empty_attributes_is_plain_get :
  Method getEmptyAttributes = MethodGet
  ∧ FormValue "names" getEmptyAttributes = "foo"
  ∧ Form getEmptyAttributes !! "attributes" = Some [""]
  ∧ requestPayload getEmptyAttributes
    = Marshal (GetWDMP {| get_Command := CommandGet; get_Names := ["foo"];
                          get_Attributes := "" |})
  ∧ requestPayload getEmptyAttributes
    ≠ Marshal (GetWDMP {| get_Command := CommandGetAttrs;
                          get_Names := ["foo"]; get_Attributes := "" |}).
Proof.
  repeat split; try reflexivity. vm_compute. discriminate.
Qed.

Lemma iot_request_never_refused_witness :
  (Method postIotExtra = MethodPost
   ∧ route MethodPost ["device"; "mac:112233445566"; "iot"; "extra"]
     = Some (Vars postIotExtra)
   ∧ var (Vars postIotExtra) "service" = "iot")
  ∧ Vars postIotExtra !! "parameter" = Some "extra"
  ∧ requestPayload postIotExtra = (bytes "{}", None)
  ∧ (requestPayload postIotExtra).2 ≠ Some ErrInvalidService.
Proof.
  assert (route MethodPost ["device"; "mac:112233445566"; "iot"; "extra"]
          = Some (Vars postIotExtra)) as Hroute by reflexivity.
  split; [split; [reflexivity|split; [assumption|reflexivity]]|].
  split; [reflexivity|].
  rewrite (iot_request_never_refused postIotExtra
             ["device"; "mac:112233445566"; "iot"; "extra"]
             eq_refl Hroute eq_refl).
  split; [reflexivity|discriminate].
Defined.

Lemma requestReplacePayload_spec_witness :
  ((∅ : gmap string string) !! "parameter" = None
   ∧ ({[ "parameter" := "table" ]} : gmap string string) !! "parameter"
     = Some "table")
  ∧ requestReplacePayload ∅ (mkReader (bytes "[{}]") None)
    = ([], Some ErrMissingTable)
  ∧ requestReplacePayload {[ "parameter" := "table" ]} (mkReader [] None)
    = ([], Some ErrMissingRows)
  ∧ requestReplacePayload {[ "parameter" := "table" ]}
      (mkReader (bytes "[{}]") None)
    = Marshal (ReplaceRowsWDMP {| replace_Command := CommandReplaceRows;
                                  replace_Table := "table";
                                  replace_Rows := [∅] |}).
Proof.
  assert (({[ "parameter" := "table" ]} : gmap string string) !! "parameter"
          = Some "table") as Htable by reflexivity.
  split; [split; [reflexivity|assumption]|]. split; [|split].
  - apply (proj1 (requestReplacePayload_spec ∅ (mkReader [] None))).
    reflexivity.
  - rewrite (proj2 (requestReplacePayload_spec {[ "parameter" := "table" ]}
                      (mkReader [] None)) "table" Htable).
    reflexivity.
  - rewrite (proj2 (requestReplacePayload_spec {[ "parameter" := "table" ]}
                      (mkReader (bytes "[{}]") None)) "table" Htable).
    reflexivity.
Defined.

(** C6, the claim as it is written fails on two bodies that are not
    empty: one that is no JSON fails with the decoder's error, which is
    not [ErrMissingRows]; the JSON value [null] decodes to no rows at
    all and gives a command. *)
Lemma replace_body_neither_rows_nor_missing_rows :
  (requestReplacePayload {[ "parameter" := "table" ]}
     (mkReader (bytes "x") None)
   = ([], Some (LibError "invalid character"))
   ∧ LibError "invalid character" ≠ ErrMissingRows)
  ∧ (UnmarshalRows (bytes "null") = ([], None)
     ∧ requestReplacePayload {[ "parameter" := "table" ]}
         (mkReader (bytes "null") None)
       = Marshal (ReplaceRowsWDMP {| replace_Command := CommandReplaceRows;
                                     replace_Table := "table";
                                     replace_Rows := [] |})
     ∧ (Marshal (ReplaceRowsWDMP {| replace_Command := CommandReplaceRows;
                                    replace_Table := "table";
                                    replace_Rows := [] |})).2 = None).
Proof.
  repeat split; try reflexivity. discriminate.
Qed.

End Examples.

(** * Further properties of the code *)

(** ** Request decoding, the other methods *)

Section DecodingMore.

Import http common translation kithttp.

Context {J : Json} {W : Wrp} {D : Declared} {M : Money} {MO : MoneyOps}.

(** X1.  [requestGetPayload] keeps every piece of the [names]
    parameter, the empty ones as well: a parameter that is not empty
    gives a get command with one name more than it has commas, and
    these names joined by commas are the parameter. *)
Theorem get_names_one_more_than_commas names attributes :
  names ≠ "" →
  ∃ g, requestGetPayload names attributes = Marshal (GetWDMP g)
    ∧ length (get_Names g) = S (strings.Count names ",")
    ∧ strings.Join (get_Names g) "," = names
    ∧ get_Attributes g = attributes.
Proof.
  intros Hnames. unfold requestGetPayload. rewrite decide_False by done.
  destruct (decide (attributes ≠ "")) as [Ha|Ha].
  - eexists. split; [done|]. simpl.
    by rewrite Split_length, Join_Split.
  - eexists. split; [done|]. simpl.
    rewrite Split_length, Join_Split. repeat split.
    destruct (decide (attributes = "")) as [->|]; done.
Qed.

(** X2.  [requestAddPayload] checks in this order: without the path
    variable [parameter] the result is [ErrMissingTable] whatever the
    body, which is not read; a body that cannot be read gives the read
    error, also when no byte was read; a body of no bytes gives
    [ErrMissingRow]; a body that does not decode gives the decoder's
    error; any other body gives the add-row command of the table with
    the decoded row. *)
Theorem requestAddPayload_spec (m : gmap string string) (input : Reader) :
  (m !! "parameter" = None →
   ∀ input', requestAddPayload m input' = ([], Some ErrMissingTable))
  ∧ (∀ table, m !! "parameter" = Some table →
     requestAddPayload m input
     = match rd_err input with
       | Some e => ([], Some e)
       | None =>
           match rd_data input with
           | [] => ([], Some ErrMissingRow)
           | _ =>
               match UnmarshalRow (rd_data input) with
               | (row, None) =>
                   Marshal (AddRowWDMP {| add_Command := CommandAddRow;
                                          add_Table := table;
                                          add_Row := row |})
               | (_, Some e) => ([], Some e)
               end
           end
       end).
Proof.
  split.
  - intros Hm input'. unfold requestAddPayload. by rewrite Hm.
  - intros table Hm. unfold requestAddPayload, ReadAll. rewrite Hm.
    destruct (rd_err input); [done|].
    destruct (rd_data input) as [|b data]; [done|].
    rewrite decide_False by done.
    by destruct (UnmarshalRow (b :: data)) as [row [e|]].
Qed.

(** X3.  A DELETE request is decoded from its path variables alone:
    the row is the variable [parameter] as it is (an empty one is
    taken too), [ErrMissingRow] is the answer when there is none, and
    body, query and headers play no part. *)
Theorem delete_decoded_from_path (r : Request) :
  Method r = MethodDelete →
  requestPayload r
  = match Vars r !! "parameter" with
    | Some row =>
        Marshal (DeleteRowDMP {| delete_Command := CommandDeleteRow;
                                 delete_Row := row |})
    | None => ([], Some ErrMissingRow)
    end
  ∧ ∀ r', Method r' = MethodDelete → Vars r' = Vars r →
      requestPayload r' = requestPayload r.
Proof.
  intros Hm.
  assert (∀ r0, Method r0 = MethodDelete →
            requestPayload r0 = requestDeletePayload (Vars r0)) as Hdel.
  { intros r0 H0. unfold requestPayload. rewrite H0. done. }
  split.
  - rewrite Hdel by done. unfold requestDeletePayload.
    by destruct (Vars r !! "parameter").
  - intros r' Hm' Hv. rewrite !Hdel by done. by rewrite Hv.
Qed.

(** X4.  [requestSetPayload]: a body that cannot be read gives the
    read error; the error of the JSON decoder ends the decoding only
    when the body has bytes, and is dropped for a body of no bytes;
    then comes the error of [deduceSET]; a command that is not valid
    gives [ErrInvalidSetWDMP] and is not marshalled. *)
Theorem requestSetPayload_spec (input : Reader) newCID oldCID syncCMC :
  requestSetPayload input newCID oldCID syncCMC
  = match rd_err input with
    | Some e => ([], Some e)
    | None =>
        let decoded := UnmarshalSet (rd_data input) newSetWDMP in
        match decoded.2, rd_data input with
        | Some e, _ :: _ => ([], Some e)
        | _, _ =>
            match deduceSET decoded.1 newCID oldCID syncCMC with
            | (_, Some e) => ([], Some e)
            | (wdmp, None) =>
                if isValidSetWDMP wdmp then Marshal (SetWDMP wdmp)
                else ([], Some ErrInvalidSetWDMP)
            end
        end
    end.
Proof.
  unfold requestSetPayload, ReadAll.
  destruct (rd_err input) as [e|]; [done|].
  cbv zeta.
  destruct (UnmarshalSet (rd_data input) newSetWDMP) as [wdmp [e|]] eqn:Hu;
    cbn [fst snd].
  - destruct (rd_data input) as [|b data] eqn:Hd.
    + case_decide as Hc; [|exfalso; apply Hc; by right].
      destruct (deduceSET wdmp newCID oldCID syncCMC) as [wdmp' [e'|]];
        [done|]. by destruct (isValidSetWDMP wdmp').
    + case_decide as Hc; [|done]. by destruct Hc.
  - case_decide as Hc; [|exfalso; apply Hc; by left].
    destruct (deduceSET wdmp newCID oldCID syncCMC) as [wdmp' [e'|]].
    + by destruct (rd_data input).
    + by destruct (rd_data input), (isValidSetWDMP wdmp').
Qed.

(** X5.  The methods.  [requestPayload] answers every method other
    than GET, PATCH, DELETE, PUT and POST with [ErrUnsupportedMethod]
    (method names are compared as they are written), and the routes of
    [ConfigHandler] let none of them through. *)
Theorem unsupported_method_never_routed :
  (∀ r : Request,
     Method r ∉ [MethodGet; MethodPatch; MethodDelete; MethodPut; MethodPost] →
     requestPayload r = ([], Some ErrUnsupportedMethod))
  ∧ (∀ method path vars,
       route method path = Some vars →
       method ∈ [MethodGet; MethodPatch; MethodDelete; MethodPut; MethodPost]).
Proof.
  split.
  - intros r Hm. unfold requestPayload.
    repeat (rewrite decide_False;
            [|intros Heq; apply Hm; rewrite Heq; set_solver]).
    done.
  - intros method path vars Hroute. unfold route in Hroute.
    repeat (match type of Hroute with
            | context [match ?x with _ => _ end] =>
                destruct x eqn:?; try done
            end);
      repeat (match goal with
              | H : _ && _ = true |- _ => apply andb_true_iff in H as [? ?]
              | H : _ || _ = true |- _ => apply orb_true_iff in H as [?|?]
              | H : String.eqb _ _ = true |- _ => apply String.eqb_eq in H
              end); subst; set_solver.
Qed.


Lemma segment_nonempty s : segment s = true → s ≠ "".
Proof. unfold segment. intros Hs ->. done. Qed.

(** The routes, with the test of the first segment written out. *)
Lemma route_unfold method path :
  route method path
  = match path with
    | [x; deviceid; service] =>
        if decide (x = "device") then
          if segment deviceid && String.eqb service "iot"
             && String.eqb method MethodPost
          then Some {[ "deviceid" := deviceid; "service" := service ]}
          else if segment deviceid && segment service
                  && (String.eqb method MethodGet
                      || String.eqb method MethodPatch)
          then Some {[ "deviceid" := deviceid; "service" := service ]}
          else None
        else None
    | [x; deviceid; service; parameter] =>
        if decide (x = "device") then
          if segment deviceid && segment service && segment parameter
             && (String.eqb method MethodDelete || String.eqb method MethodPut
                 || String.eqb method MethodPost)
          then Some {[ "deviceid" := deviceid; "service" := service;
                       "parameter" := parameter ]}
          else None
        else None
    | _ => None
    end.
Proof.
  destruct path as [|x [|d [|s [|p [|? ?]]]]]; try done;
    try (destruct (decide (x = "device")) as [->|Hne]; [done|]);
    unfold route;
    repeat (match goal with
            | |- context [match ?x with _ => _ end] =>
                is_var x; destruct x; try done; try congruence
            end).
Qed.

(** X6.  What the routes of [ConfigHandler] let through.  A routed
    request has a device id and a service that are not empty.  With
    nothing after the service it is a GET, a PATCH, or a POST to the
    service iot, and has no variable [parameter]; with one more segment
    it is a DELETE, a PUT or a POST, and the segment, which is not
    empty, is the variable [parameter]. *)
Theorem route_shape method path vars :
  route method path = Some vars →
  ∃ deviceid service,
    deviceid ≠ "" ∧ service ≠ ""
    ∧ vars !! "deviceid" = Some deviceid
    ∧ vars !! "service" = Some service
    ∧ ((path = ["device"; deviceid; service]
        ∧ vars !! "parameter" = None
        ∧ (method = MethodGet ∨ method = MethodPatch
           ∨ (method = MethodPost ∧ service = "iot")))
       ∨ (∃ parameter,
            parameter ≠ ""
            ∧ path = ["device"; deviceid; service; parameter]
            ∧ vars !! "parameter" = Some parameter
            ∧ (method = MethodDelete ∨ method = MethodPut
               ∨ method = MethodPost))).
Proof.
  intros Hroute. rewrite route_unfold in Hroute.
  destruct path as [|x [|d [|s [|p [|? ?]]]]]; try done;
    case_decide as Hx; try done; subst x.
  - exists d, s.
    destruct (segment d && String.eqb s "iot" && String.eqb method MethodPost)
      eqn:Hiot.
    + injection Hroute as <-.
      apply andb_true_iff in Hiot as [Hiot Hm].
      apply andb_true_iff in Hiot as [Hd Hs].
      apply String.eqb_eq in Hs as ->. apply String.eqb_eq in Hm as ->.
      apply segment_nonempty in Hd.
      repeat split; try done. left. repeat split; try done. by eauto.
    + destruct (segment d && segment s
                && (String.eqb method MethodGet
                    || String.eqb method MethodPatch)) eqn:Hget; [|done].
      injection Hroute as <-.
      apply andb_true_iff in Hget as [Hget Hm].
      apply andb_true_iff in Hget as [Hd Hs].
      apply segment_nonempty in Hd. apply segment_nonempty in Hs.
      repeat split; try done. left. repeat split; try done.
      apply orb_true_iff in Hm as [Hm|Hm]; apply String.eqb_eq in Hm;
        by eauto.
  - exists d, s.
    destruct (segment d && segment s && segment p
              && (String.eqb method MethodDelete
                  || String.eqb method MethodPut
                  || String.eqb method MethodPost)) eqn:Hrow; [|done].
    injection Hroute as <-.
    apply andb_true_iff in Hrow as [Hrow Hm].
    apply andb_true_iff in Hrow as [Hrow Hp].
    apply andb_true_iff in Hrow as [Hd Hs].
    apply segment_nonempty in Hd. apply segment_nonempty in Hs.
    apply segment_nonempty in Hp.
    repeat split; try done. right. exists p. repeat split; try done.
    apply orb_true_iff in Hm as [Hm|Hm];
      [apply orb_true_iff in Hm as [Hm|Hm]|]; apply String.eqb_eq in Hm;
      by eauto.
Qed.

(** X7.  Routing and decoding together: the decoders' answers for a
    missing path variable cannot be given to a routed request.  A
    routed DELETE request decodes to the delete-row command of the path
    segment after the service; a routed PUT request and a routed POST
    request to a service other than iot have a table that is not
    empty, so that [requestReplacePayload] and [requestAddPayload] get
    past their check of the table. *)
Theorem routed_request_has_its_parameter (r : Request) path :
  route (Method r) path = Some (Vars r) →
  (Method r = MethodDelete →
   ∃ row, row ≠ "" ∧ last path = Some row
     ∧ requestPayload r
       = Marshal (DeleteRowDMP {| delete_Command := CommandDeleteRow;
                                  delete_Row := row |}))
  ∧ (Method r = MethodPut
     ∨ (Method r = MethodPost ∧ var (Vars r) "service" ≠ "iot") →
     ∃ table, table ≠ "" ∧ last path = Some table
       ∧ Vars r !! "parameter" = Some table
       ∧ requestPayload r
         = if decide (Method r = MethodPut)
           then requestReplacePayload (Vars r) (ReqBody r)
           else requestAddPayload (Vars r) (ReqBody r)).
Proof.
  intros Hroute.
  destruct (route_shape _ _ _ Hroute)
    as (deviceid & service & Hd & Hs & Hvd & Hvs & Hshape).
  split.
  - intros Hm.
    destruct Hshape as [(_ & _ & Hmethod)|(row & Hrow & -> & Hv & _)].
    { rewrite Hm in Hmethod. by destruct Hmethod as [?|[?|[? _]]]. }
    exists row. split; [done|]. split; [done|].
    unfold requestPayload. rewrite Hm. simpl.
    unfold requestDeletePayload. by rewrite Hv.
  - intros Hm.
    destruct Hshape as [(_ & _ & Hmethod)|(table & Htable & -> & Hv & _)].
    { destruct Hm as [Hm|[Hm Hiot]]; rewrite Hm in Hmethod.
      - by destruct Hmethod as [?|[?|[? _]]].
      - destruct Hmethod as [?|[?|[_ ->]]]; [done..|].
        exfalso. apply Hiot. unfold var. by rewrite Hvs. }
    exists table. split; [done|]. split; [done|]. split; [done|].
    destruct Hm as [Hm|[Hm Hiot]].
    + rewrite decide_True by done. unfold requestPayload. by rewrite Hm.
    + rewrite decide_False by (by rewrite Hm).
      unfold requestPayload. rewrite Hm. simpl.
      by rewrite decide_False.
Qed.

(** X10.  When the cluster answers 200 with a body that is no
    envelope and with header names in canonical form, [encodeResponse]
    returns the decoder's error and has written nothing: no status, no
    body, and no JSON Content-Type, only the forwarded headers and the
    transaction id.  So [encodeError],
    given the error and the writer as [encodeResponse] left it, still
    decides the response: the caller gets the status and the message of
    the error classification, on a response that carries the forwarded
    headers of the cluster. *)
Theorem undecodable_envelope_left_to_error_encoder ctx w resp tid msg err :
  RequestTID ctx = Some tid →
  Code resp = StatusOK →
  DecodeMsgpack (xBody resp) = (msg, Some err) →
  canonicalKeys (ForwardedHeaders resp) →
  unwritten w → spansKeepResponse ctx →
  ∃ w1,
    encodeResponse ctx w resp = Some (w1, Some err)
    ∧ unwritten w1
    ∧ (∀ k, spansKeepHeader ctx k →
         header w1 !! k
         = if decide (k = CanonicalHeaderKey HeaderWPATID) then Some [tid]
           else ForwardHeadersByPrefix "" (Some (ForwardedHeaders resp))
                  (header w) !! k)
    ∧ ∃ w2,
        encodeError ctx err w1 = Some w2
        ∧ code w2 = Some (default StatusInternalServerError (asCodedError err))
        ∧ body w2
          = EncodeMessage
              (Error_ (match asCodedError err with
                       | Some _ => err
                       | None => ErrTr1d1umInternal
                       end))
        ∧ ∀ k, k ≠ "Content-Type" → k ≠ CanonicalHeaderKey HeaderWPATID →
            spansKeepHeader ctx k →
            header w2 !! k
            = ForwardHeadersByPrefix "" (Some (ForwardedHeaders resp))
                (header w) !! k.
Proof.
  intros Htid Hcode Hmsg _ [Hw Hb] Hkeep.
  rewrite (encodeResponse_undecodable ctx w resp tid msg err) by done.
  set (w0 := with_header (Set_ HeaderWPATID tid)
               (with_header
                  (ForwardHeadersByPrefix ""
                     (Some (ForwardedHeaders resp))) w)).
  cbv zeta.
  set (w1 := match TrackerFromContext ctx with
             | Some tracker =>
                 WriteSpansHeaderTr1d1um (Finish tracker) w0 resp
             | None => w0
             end).
  assert (code w1 = None ∧ body w1 = []
          ∧ ∀ k, spansKeepHeader ctx k → header w1 !! k = header w0 !! k)
    as (Hw1 & Hb1 & Hh1).
  { unfold w1. destruct (TrackerFromContext ctx) as [tracker|] eqn:Htr.
    - destruct (Hkeep tracker w0 resp Htr) as [-> ->].
      repeat split; try done. intros k Hk. by apply Hk.
    - done. }
  assert (∀ k, header w0 !! k
               = if decide (k = CanonicalHeaderKey HeaderWPATID)
                 then Some [tid]
                 else ForwardHeadersByPrefix ""
                        (Some (ForwardedHeaders resp)) (header w) !! k)
    as Hh0.
  { intros k. unfold w0. simpl. by rewrite Set_lookup. }
  exists w1. split; [done|]. split; [done|]. split.
  { intros k Hk. by rewrite Hh1, Hh0. }
  unfold encodeError. rewrite Htid. simpl.
  assert (∀ k, k ≠ "Content-Type" → k ≠ CanonicalHeaderKey HeaderWPATID →
            spansKeepHeader ctx k →
            Set_ HeaderWPATID tid
              (Set_ contentTypeHeaderKey jsonContentType (header w1)) !! k
            = ForwardHeadersByPrefix "" (Some (ForwardedHeaders resp))
                (header w) !! k) as Hheaders.
  { intros k Hct Hk Hkk. rewrite !Set_lookup.
    unfold contentTypeHeaderKey. rewrite canonical_Content_Type.
    rewrite !decide_False by done. rewrite Hh1, Hh0 by done.
    by rewrite decide_False. }
  destruct (asCodedError err) as [statusCode|]; simpl;
    eexists; (split; [done|]); (split; [|split]).
  - by apply Write_code, WriteHeader_code.
  - rewrite Write_body, WriteHeader_body. simpl. by rewrite Hb1.
  - intros k ???. rewrite Write_header, WriteHeader_header. by apply Hheaders.
  - apply Write_code. by apply (WriteHeader_code StatusInternalServerError).
  - rewrite Write_body, WriteHeader_body. simpl. by rewrite Hb1.
  - intros k ???. rewrite Write_header, WriteHeader_header. by apply Hheaders.
Qed.

End DecodingMore.

(** ** [HandleResponse], the other branches *)

Section HandlingMore.

Import http common communication.

Context {D : Declared}.

(** X13.  With [wholeBody] a response of status 200 is not unwrapped.
    Provided [ReportError] does nothing for a nil error, and for a
    response with header names in canonical form: a body that
    can be read is sent as it is after status 200, whatever
    [ExtractPayload] and [GetStatusCodeFromRDKResponse] would make of
    it, and the headers other than Content-Type are the caller's with
    the forwarded ones; of a body that cannot be read nothing is sent,
    not even what was read of it, and the read error goes to
    [ReportError]. *)
Theorem whole_body_forwarded (resp : Response) origin :
  StatusCode resp = StatusOK → canonicalKeys (Header_ resp) →
  unwritten origin →
  (∀ w, ReportError None w = w) →
  let forwarded :=
    with_header (ForwardHeadersByPrefix "X" (Some (Header_ resp))) origin in
  match rd_err (Body resp) with
  | None =>
      ∃ w', HandleResponse None (Some resp) origin true = Some (w', [])
        ∧ code w' = Some StatusOK
        ∧ body w' = rd_data (Body resp)
        ∧ (∀ k, k ≠ "Content-Type" → header w' !! k = header forwarded !! k)
        ∧ ∀ D' : Declared,
            ReportError (Declared:=D') = ReportError (Declared:=D) →
            HandleResponse (D:=D') None (Some resp) origin true
            = Some (w', [])
  | Some e =>
      HandleResponse None (Some resp) origin true
      = Some (ReportError (Some e) forwarded, [])
  end.
Proof.
  intros Hcode _ [Hw Hb] Hreport forwarded.
  unfold HandleResponse, forwardInput, ReadAll. simpl.
  rewrite decide_False by (by intros []).
  destruct (rd_err (Body resp)) as [e|]; [done|].
  rewrite Hreport. eexists. split; [done|]. split; [|split; [|split]].
  - by apply Write_code_unwritten.
  - rewrite Write_body. simpl. by rewrite Hb.
  - intros k _. by rewrite Write_header.
  - intros D' HD'. rewrite decide_False by (by intros []).
    rewrite HD'. by rewrite Hreport.
Qed.


End HandlingMore.

(** ** [PerformRequest] over all schedules, and [Send] *)

Section ExecutionMore.

Import http communication.

Context {R : Type}.

Implicit Types (s : state (R:=R)) (r : clientResponse R)
  (ev : event (R:=R)) (hist evs : list (event (R:=R))).

Lemma callInvariant_start : callInvariant [] (start (R:=R)).
Proof.
  unfold callInvariant. simpl. split; [done|]. split; [done|].
  split; [done|]. split; [by intros [?|?]|done].
Qed.

Lemma callInvariant_exec hist s ev s' :
  callInvariant hist s → exec ev s = Some s' →
  callInvariant (hist ++ [ev]) s'.
Proof.
  destruct s as [c g cl ce]. unfold callInvariant. simpl.
  intros (Hsend & Hret & Hctx & Hsel & Hclosed) Hev.
  assert (∀ x, x ∈ hist → x ∈ hist ++ [ev]) as Hin.
  { intros x Hx. apply elem_of_app. by left. }
  assert (ev ∈ hist ++ [ev]) as Hlast.
  { apply elem_of_app. right. by apply list_elem_of_singleton. }
  assert (∀ r0, c = Returned r0 →
            DoReturns r0 ∈ hist ++ [ev]
            ∨ ∃ e0, CtxDone e0 ∈ hist ++ [ev]
                    ∧ r0 = mkClientResponse None (Some e0)) as Hret'.
  { intros r0 Hr0. destruct (Hret r0 Hr0) as [?|(e0 & ? & ?)]; by eauto. }
  assert (g = AtClose ∨ g = Exited →
          ∃ r0, c = Returned r0 ∧ DoReturns r0 ∈ hist ++ [ev]) as Hsel'.
  { intros Hg. destruct (Hsel Hg) as (r0 & ? & ?). by eauto. }
  destruct ev as [e|r| | | |]; simpl in Hev.
  - destruct ce; [done|]. injection Hev as <-. simpl.
    repeat split; intros; simplify_eq/=;
      first [ by intuition (simplify_eq; eauto 10)
            | match goal with
              | Hg : _ = AtClose ∨ _ = Exited |- _ =>
                  destruct (Hsel' Hg) as (? & ? & ?); simplify_eq; by eauto
              end ].
  - destruct g; try done. injection Hev as <-. simpl.
    repeat split; intros; simplify_eq/=;
      first [ by intuition (simplify_eq; eauto 10)
            | match goal with
              | Hg : _ = AtClose ∨ _ = Exited |- _ =>
                  destruct (Hsel' Hg) as (? & ? & ?); simplify_eq; by eauto
              end ].
  - destruct g as [|r| |]; try done. destruct c; [|done].
    injection Hev as <-. simpl.
    repeat split; intros; simplify_eq/=;
      first [ by intuition (simplify_eq; eauto 10)
            | match goal with
              | Hg : _ = AtClose ∨ _ = Exited |- _ =>
                  destruct (Hsel' Hg) as (? & ? & ?); simplify_eq; by eauto
              end ].
  - destruct c; [|done]. destruct ce as [e|]; [|done].
    injection Hev as <-. simpl.
    repeat split; intros; simplify_eq/=;
      first [ by intuition (simplify_eq; eauto 10)
            | match goal with
              | Hg : _ = AtClose ∨ _ = Exited |- _ =>
                  destruct (Hsel' Hg) as (? & ? & ?); simplify_eq; by eauto
              end ].
  - destruct g; try done. injection Hev as <-. simpl.
    repeat split; intros; simplify_eq/=;
      first [ by intuition (simplify_eq; eauto 10)
            | match goal with
              | Hg : _ = AtClose ∨ _ = Exited |- _ =>
                  destruct (Hsel' Hg) as (? & ? & ?); simplify_eq; by eauto
              end ].
  - destruct c; [|done]. destruct cl; [|done].
    destruct Hsel as (r & Hr & _); [right; by apply Hclosed|done].
Qed.

Lemma callInvariant_run evs hist s s' :
  callInvariant hist s → run evs s = Some s' →
  callInvariant (hist ++ evs) s'.
Proof.
  revert hist s. induction evs as [|ev evs IH]; intros hist s Hinv Hrun.
  - simpl in Hrun. injection Hrun as <-. by rewrite app_nil_r.
  - simpl in Hrun. destruct (exec ev s) as [s1|] eqn:Hev; [|done].
    rewrite (cons_middle ev hist evs), app_assoc.
    apply (IH _ s1); [|done]. by apply (callInvariant_exec hist s).
Qed.


Lemma run_app evs1 evs2 s :
  run (evs1 ++ evs2) s = s1 ← run evs1 s; run evs2 s1.
Proof.
  revert s. induction evs1 as [|ev evs1 IH]; intros s; [done|].
  simpl. by destruct (exec ev s).
Qed.

Lemma run_steps evs s s' : run evs s = Some s' → steps s s'.
Proof.
  revert s. induction evs as [|ev evs IH]; intros s Hrun; simpl in Hrun.
  - injection Hrun as <-. apply rtc_refl.
  - destruct (exec ev s) as [s1|] eqn:Hev; [|done].
    eapply rtc_l; [by exists ev|]. by apply IH.
Qed.

(** X15.  What [PerformRequest] returns, over all schedules: the
    result of [client.Do], or nil with the error of the context when
    the context is done, and nothing else. *)
Theorem returned_result_provenance evs s r :
  run evs start = Some s → callerAt s = Returned r →
  DoReturns r ∈ evs
  ∨ ∃ e, CtxDone e ∈ evs ∧ r = mkClientResponse None (Some e).
Proof.
  intros Hrun Hret.
  destruct (callInvariant_run evs [] start s callInvariant_start Hrun)
    as (_ & Hinv & _). by apply Hinv.
Qed.

(** X16.  The channel is closed only by the goroutine on its way out,
    after the caller has taken the result of [client.Do] from it: in no
    schedule does the [select] receive from the closed channel (which
    would make [PerformRequest] return nil and no error). *)
Theorem closed_only_after_handoff evs s :
  run evs start = Some s →
  (closed s = true →
   goroutineAt s = Exited
   ∧ ∃ r, callerAt s = Returned r ∧ DoReturns r ∈ evs)
  ∧ exec SelectClosed s = None.
Proof.
  intros Hrun.
  destruct (callInvariant_run evs [] start s callInvariant_start Hrun)
    as (_ & _ & _ & Hpast & Hclosed).
  assert (closed s = true →
          goroutineAt s = Exited
          ∧ ∃ r, callerAt s = Returned r ∧ DoReturns r ∈ evs) as Hc.
  { intros Hcl. apply Hclosed in Hcl. split; [done|]. apply Hpast. by right. }
  split; [done|]. simpl.
  destruct (callerAt s) eqn:Hcaller; [|done].
  destruct (closed s); [|done].
  destruct (Hc eq_refl) as (_ & r & Hr & _). done.
Qed.

(** X17.  What the caller has returned is final: no later event, in
    particular not the late return of [client.Do], changes it. *)
Theorem returned_result_final evs s s' r :
  callerAt s = Returned r → run evs s = Some s' → callerAt s' = Returned r.
Proof.
  intros Hret Hrun. apply (returned_stable s); [done|]. by eapply run_steps.
Qed.

(** X18.  When the goroutine of a call gets to exit.  Once the caller
    has returned, the goroutine can still exit exactly when it is past
    its send, that is when the caller returned with the result of
    [client.Do]; a caller that returned first leaves a goroutine that
    no schedule brings to its exit. *)
Theorem goroutine_exits_iff_handed_over evs s r :
  run evs start = Some s → callerAt s = Returned r →
  (∃ evs' s', run evs' s = Some s' ∧ goroutineAt s' = Exited)
  ↔ (goroutineAt s = AtClose ∨ goroutineAt s = Exited).
Proof.
  intros Hrun Hret.
  destruct (callInvariant_run evs [] start s callInvariant_start Hrun)
    as (_ & _ & _ & _ & Hclosed).
  split.
  - intros (evs' & s' & Hrun' & Hexit).
    assert (goroutineAt s ≠ Exited → closed s = false) as Hopen.
    { intros Hne. destruct (closed s) eqn:Hcl; [|done].
      exfalso. apply Hne. by apply Hclosed. }
    destruct (goroutineAt s) as [|r'| |] eqn:Hg; [| |by left|by right].
    + destruct (sender_never_exits s s' r) as [[Hs'|[? Hs']] _];
        try done; try (by left); try (by eapply run_steps);
        try (by apply Hopen); congruence.
    + destruct (sender_never_exits s s' r) as [[Hs'|[? Hs']] _];
        try done; try (right; by eauto); try (by eapply run_steps);
        try (by apply Hopen); congruence.
  - intros [Hg|Hg].
    + exists [Close]. eexists. simpl. rewrite Hg. done.
    + exists []. by eexists.
Qed.

End ExecutionMore.

Section SendingMore.

Import http communication.

Context {R : Type} {C : Conversion R}.

Lemma Get_Set_eq key value (h : Header) : Get key (Set_ key value h) = value.
Proof. unfold Get. by rewrite Set_lookup, decide_True. Qed.

Lemma Get_Set_ne key key' value (h : Header) :
  CanonicalHeaderKey key' ≠ CanonicalHeaderKey key →
  Get key' (Set_ key value h) = Get key' h.
Proof. intros Hne. unfold Get. by rewrite Set_lookup, decide_False. Qed.

(** X19.  [Send] performs one request or none, and which of the two
    is settled by the encoding and by [NewHTTPRequest].  When the
    encoding of the message fails, or else the construction of the
    request, [Send] writes status 500, returns the error, and nothing
    leaves for the server.  When both succeed it leaves the writer
    alone and performs exactly one request: the one that
    [NewHTTPRequest] built for a POST to
    [targetURL + baseURI + "/" + serverVersion + "/device"] with the
    encoded message as body, with Content-Type set to the one of
    [wrp.JSON] and Authorization to the one of the inbound request;
    and it returns what the requester returns for it. *)
Theorem Send_outcome (w : ResponseWriter) data (req : Request) :
  let wrpMsg := GetConfiguredWRP data (Vars req) (ReqHeader req) in
  let fullPath :=
    targetURL +:+ baseURI +:+ "/" +:+ serverVersion +:+ "/device" in
  let failed e :=
    Some {| sent_writer := WriteHeader StatusInternalServerError w;
            sent_resp := None; sent_err := Some e;
            sent_log := [LogError e]; sent_performed := [] |} in
  (∀ payload e,
     GenericEncode wrpMsg = (payload, Some e) →
     Send w data req = failed e)
  ∧ (∀ payload built e,
       GenericEncode wrpMsg = (payload, None) →
       NewHTTPRequest MethodPost fullPath payload = (built, Some e) →
       Send w data req = failed e)
  ∧ (∀ payload built,
       GenericEncode wrpMsg = (payload, None) →
       NewHTTPRequest MethodPost fullPath payload = (Some built, None) →
       ∃ request,
         Send w data req
         = Some {| sent_writer := w;
                   sent_resp := (PerformRequest request).1;
                   sent_err := (PerformRequest request).2;
                   sent_log := []; sent_performed := [request] |}
         ∧ srv_Method request = srv_Method built
         ∧ srv_URL request = srv_URL built
         ∧ srv_Body request = srv_Body built
         ∧ Get "Content-Type" (srv_Header request) = JSONContentType
         ∧ Get "Authorization" (srv_Header request)
           = Get "Authorization" (ReqHeader req)
         ∧ ∀ k, k ≠ "Content-Type" → k ≠ "Authorization" →
             srv_Header request !! k = srv_Header built !! k).
Proof.
  intros wrpMsg fullPath failed. unfold Send. fold wrpMsg. fold fullPath.
  split; [|split].
  - intros payload e Henc. by rewrite Henc.
  - intros payload built e Henc Hnew. by rewrite Henc, Hnew.
  - intros payload built Henc Hnew. rewrite Henc, Hnew.
    cbn [mbind option_bind].
    exists {| srv_Method := srv_Method built;
              srv_URL := srv_URL built;
              srv_Header :=
                Set_ "Authorization" (Get "Authorization" (ReqHeader req))
                  (Set_ "Content-Type" JSONContentType (srv_Header built));
              srv_Body := srv_Body built |}.
    split.
    { by destruct (PerformRequest _) as [respFromServer err]. }
    cbn [srv_Method srv_URL srv_Body srv_Header].
    split_and!; try done.
    + by rewrite Get_Set_ne, Get_Set_eq.
    + by rewrite Get_Set_eq.
    + intros k Hct Hauth. by rewrite !Set_lookup, !decide_False.
Qed.

End SendingMore.

(** ** The further properties on concrete requests, responses and
    schedules *)

Section ExamplesMore.

Import http common translation kithttp communication example.

Lemma get_names_one_more_than_commas_witness :
  "a,,b" ≠ ""
  ∧ ∃ g, requestGetPayload "a,,b" "" = Marshal (GetWDMP g)
      ∧ get_Names g = ["a"; ""; "b"].
Proof.
  split; [discriminate|].
  destruct (get_names_one_more_than_commas "a,,b" "") as (g & Hg & _);
    [discriminate|].
  exists {| get_Command := CommandGet; get_Names := ["a"; ""; "b"];
            get_Attributes := "" |}.
  split; reflexivity.
Defined.

Lemma requestAddPayload_spec_witness :
  ((∅ : gmap string string) !! "parameter" = None
   ∧ ({[ "parameter" := "table" ]} : gmap string string) !! "parameter"
     = Some "table")
  ∧ requestAddPayload ∅ (mkReader (bytes "{}") (Some (LibError "reset")))
    = ([], Some ErrMissingTable)
  ∧ requestAddPayload {[ "parameter" := "table" ]}
      (mkReader [] (Some (LibError "reset")))
    = ([], Some (LibError "reset"))
  ∧ requestAddPayload {[ "parameter" := "table" ]} (mkReader (bytes "{}") None)
    = Marshal (AddRowWDMP {| add_Command := CommandAddRow;
                             add_Table := "table"; add_Row := ∅ |}).
Proof.
  assert (({[ "parameter" := "table" ]} : gmap string string) !! "parameter"
          = Some "table") as Htable by reflexivity.
  split; [split; [reflexivity|assumption]|]. split; [|split].
  - apply (proj1 (requestAddPayload_spec ∅ (mkReader [] None))).
    reflexivity.
  - rewrite (proj2 (requestAddPayload_spec {[ "parameter" := "table" ]}
                      (mkReader [] (Some (LibError "reset"))))
               "table" Htable).
    reflexivity.
  - rewrite (proj2 (requestAddPayload_spec {[ "parameter" := "table" ]}
                      (mkReader (bytes "{}") None)) "table" Htable).
    reflexivity.
Defined.

Lemma delete_decoded_from_path_witness :
  Method deleteRowX = MethodDelete
  ∧ requestPayload deleteRowX
    = Marshal (DeleteRowDMP {| delete_Command := CommandDeleteRow;
                               delete_Row := "rowX" |}).
Proof.
  split; [reflexivity|].
  rewrite (proj1 (delete_decoded_from_path deleteRowX eq_refl)).
  reflexivity.
Defined.

Lemma unsupported_method_never_routed_witness :
  (Method getInSmallLetters
   ∉ [MethodGet; MethodPatch; MethodDelete; MethodPut; MethodPost])
  ∧ requestPayload getInSmallLetters = ([], Some ErrUnsupportedMethod)
  ∧ route "get" ["device"; "mac:112233445566"; "config"] = None.
Proof.
  assert (Method getInSmallLetters
          ∉ [MethodGet; MethodPatch; MethodDelete; MethodPut; MethodPost])
    as Hm.
  { intros Hin. repeat (apply elem_of_cons in Hin as [Hin|Hin];
                        [discriminate|]).
    by apply elem_of_nil in Hin. }
  split; [assumption|]. split; [|reflexivity].
  apply (proj1 unsupported_method_never_routed getInSmallLetters Hm).
Defined.

Lemma route_shape_witness :
  route "DELETE" ["device"; "mac:112233445566"; "config"; "rowX"]
  = Some (Vars deleteRowX)
  ∧ ∃ deviceid service,
      Vars deleteRowX !! "deviceid" = Some deviceid
      ∧ Vars deleteRowX !! "service" = Some service
      ∧ deviceid ≠ "" ∧ service ≠ "".
Proof.
  split; [reflexivity|].
  destruct (route_shape "DELETE"
              ["device"; "mac:112233445566"; "config"; "rowX"]
              (Vars deleteRowX) eq_refl)
    as (deviceid & service & Hd & Hs & Hvd & Hvs & _).
  exists deviceid, service. repeat split; assumption.
Defined.

Lemma routed_request_has_its_parameter_witness :
  (route (Method putRows) ["device"; "mac:112233445566"; "config"; "table"]
   = Some (Vars putRows)
   ∧ Method putRows = MethodPut)
  ∧ ∃ table, table ≠ ""
      ∧ Vars putRows !! "parameter" = Some table
      ∧ requestPayload putRows
        = requestReplacePayload (Vars putRows) (ReqBody putRows).
Proof.
  split; [split; reflexivity|].
  destruct (proj2 (routed_request_has_its_parameter putRows
                     ["device"; "mac:112233445566"; "config"; "table"]
                     eq_refl) (or_introl eq_refl))
    as (table & Hne & _ & Hv & Hp).
  exists table. split; [assumption|]. split; [assumption|].
  rewrite Hp. reflexivity.
Defined.

Lemma undecodable_envelope_left_to_error_encoder_witness :
  (RequestTID tracedCtx = Some "tid-1"
   ∧ Code emptyOK = StatusOK
   ∧ (DecodeMsgpack (xBody emptyOK)).2 = Some (LibError "EOF")
   ∧ canonicalKeys (ForwardedHeaders emptyOK)
   ∧ unwritten newResponseWriter ∧ spansKeepResponse tracedCtx
   ∧ spansKeepHeader tracedCtx "X-Boot-Time")
  ∧ ∃ w1 w2,
      encodeResponse tracedCtx newResponseWriter emptyOK
      = Some (w1, Some (LibError "EOF"))
      ∧ code w1 = None
      ∧ header w1 !! "X-Boot-Time" = Some ["17"]
      ∧ encodeError tracedCtx (LibError "EOF") w1 = Some w2
      ∧ code w2 = Some 500
      ∧ body w2 = EncodeMessage "something unexpected went wrong"
      ∧ header w2 !! "X-Boot-Time" = Some ["17"].
Proof.
  assert (spansKeepResponse tracedCtx) as Hkeep.
  { intros tracker w resp _. split; reflexivity. }
  assert (spansKeepHeader tracedCtx "X-Boot-Time") as Hboot.
  { intros tracker w resp _. simpl. rewrite Set_lookup. reflexivity. }
  assert (canonicalKeys (ForwardedHeaders emptyOK)) as Hcanonical.
  { apply map_Forall_singleton. reflexivity. }
  split; [repeat split; assumption || reflexivity|].
  assert (DecodeMsgpack (xBody emptyOK)
          = ((DecodeMsgpack (xBody emptyOK)).1, Some (LibError "EOF")))
    as Hmsg by reflexivity.
  destruct (undecodable_envelope_left_to_error_encoder tracedCtx
              newResponseWriter emptyOK "tid-1"
              (DecodeMsgpack (xBody emptyOK)).1 (LibError "EOF")
              eq_refl eq_refl Hmsg Hcanonical (conj eq_refl eq_refl) Hkeep)
    as (w1 & Hw1 & [Hcode1 _] & Hheader1 & w2 & Hw2 & Hcode2 & Hbody2
        & Hheader2).
  exists w1, w2. split; [assumption|]. split; [assumption|].
  split; [rewrite (Hheader1 "X-Boot-Time" Hboot); reflexivity|].
  split; [assumption|]. split; [assumption|]. split; [assumption|].
  rewrite (Hheader2 "X-Boot-Time"); [reflexivity|discriminate|discriminate
                                    |assumption].
Defined.

Lemma whole_body_forwarded_witness :
  (StatusCode notFoundFromServer = StatusOK
   ∧ canonicalKeys (Header_ notFoundFromServer)
   ∧ unwritten newResponseWriter
   ∧ ∀ w, ReportError None w = w)
  ∧ ∃ w', HandleResponse None (Some notFoundFromServer) newResponseWriter
            true = Some (w', [])
      ∧ code w' = Some 200
      ∧ body w' = notFoundPayload
      ∧ header w' !! "X-Boot-Time" = Some ["17"].
Proof.
  assert (∀ w, ReportError None w = w) as Hreport by reflexivity.
  assert (canonicalKeys (Header_ notFoundFromServer)) as Hcanonical.
  { apply map_Forall_singleton. reflexivity. }
  split; [repeat split; assumption || reflexivity|].
  destruct (whole_body_forwarded notFoundFromServer newResponseWriter
              eq_refl Hcanonical (conj eq_refl eq_refl) Hreport)
    as (w' & Hw' & Hcode & Hbody & Hheader & _).
  exists w'. split; [assumption|]. split; [assumption|].
  split; [assumption|].
  rewrite (Hheader "X-Boot-Time"); [reflexivity|discriminate].
Defined.

Lemma returned_result_provenance_witness :
  let r := mkClientResponse (Some "response") None in
  let s := {| callerAt := Returned r; goroutineAt := AtClose;
              closed := false; ctxErr := Some Canceled |} in
  run [DoReturns r; CtxDone Canceled; Handoff] start = Some s
  ∧ callerAt s = Returned r
  ∧ (DoReturns r ∈ [DoReturns r; CtxDone Canceled; Handoff]
     ∨ ∃ e, CtxDone e ∈ [DoReturns r; CtxDone Canceled; Handoff]
            ∧ r = mkClientResponse None (Some e)).
Proof.
  intros r s.
  assert (run [DoReturns r; CtxDone Canceled; Handoff] start = Some s)
    as Hrun by reflexivity.
  assert (callerAt s = Returned r) as Hret by reflexivity.
  split; [assumption|]. split; [assumption|].
  apply (returned_result_provenance _ s r Hrun Hret).
Defined.

Lemma closed_only_after_handoff_witness :
  let r := mkClientResponse (Some "response") None in
  let s := {| callerAt := Returned r; goroutineAt := Exited;
              closed := true; ctxErr := None |} in
  run [DoReturns r; Handoff; Close] start = Some s
  ∧ closed s = true
  ∧ (∃ r', callerAt s = Returned r'
           ∧ DoReturns r' ∈ [DoReturns r; Handoff; Close])
  ∧ exec SelectClosed s = None.
Proof.
  intros r s.
  assert (run [DoReturns r; Handoff; Close] start = Some s)
    as Hrun by reflexivity.
  destruct (closed_only_after_handoff _ s Hrun) as [Hclosed Hselect].
  split; [assumption|]. split; [reflexivity|].
  split; [|exact Hselect]. apply (Hclosed eq_refl).
Defined.

Lemma returned_result_final_witness :
  let r := mkClientResponse (Some "response") None in
  let timedOut := mkClientResponse (R:=string) None (Some DeadlineExceeded) in
  let s := {| callerAt := Returned timedOut; goroutineAt := InClientDo;
              closed := false; ctxErr := Some DeadlineExceeded |} in
  let s' := {| callerAt := Returned timedOut; goroutineAt := AtSend r;
               closed := false; ctxErr := Some DeadlineExceeded |} in
  run [CtxDone DeadlineExceeded; SelectCtxDone] start = Some s
  ∧ callerAt s = Returned timedOut
  ∧ run [DoReturns r] s = Some s'
  ∧ callerAt s' = Returned timedOut.
Proof.
  intros r timedOut s s'.
  assert (callerAt s = Returned timedOut) as Hret by reflexivity.
  assert (run [DoReturns r] s = Some s') as Hrun by reflexivity.
  split; [reflexivity|]. split; [assumption|]. split; [assumption|].
  apply (returned_result_final [DoReturns r] s s' timedOut Hret Hrun).
Defined.

Lemma goroutine_exits_iff_handed_over_witness :
  let r := mkClientResponse (Some "response") None in
  let s := {| callerAt := Returned r; goroutineAt := AtClose;
              closed := false; ctxErr := None |} in
  run [DoReturns r; Handoff] start = Some s
  ∧ callerAt s = Returned r
  ∧ ∃ evs' s', run evs' s = Some s' ∧ goroutineAt s' = Exited.
Proof.
  intros r s.
  assert (run [DoReturns r; Handoff] start = Some s) as Hrun by reflexivity.
  assert (callerAt s = Returned r) as Hret by reflexivity.
  split; [assumption|]. split; [assumption|].
  apply (goroutine_exits_iff_handed_over _ s r Hrun Hret).
  left. reflexivity.
Defined.

Lemma Send_outcome_witness :
  ((GenericEncode (Conversion:=brokenEncoder)
      (GetConfiguredWRP (bytes "{}") (Vars patchWithAuth)
         (ReqHeader patchWithAuth))).2
   = Some (LibError "unsupported type")
   ∧ (GenericEncode (Conversion:=conversion)
        (GetConfiguredWRP (bytes "{}") (Vars patchWithAuth)
           (ReqHeader patchWithAuth))).2 = None)
  ∧ (∃ out, Send (C:=brokenEncoder) newResponseWriter (bytes "{}")
              patchWithAuth = Some out
       ∧ sent_performed out = []
       ∧ code (sent_writer out) = Some 500)
  ∧ (∃ out request,
       Send (C:=conversion) newResponseWriter (bytes "{}") patchWithAuth
       = Some out
       ∧ sent_performed out = [request]
       ∧ sent_writer out = newResponseWriter
       ∧ srv_URL request = "https://xmidt.example.net/api/v2/device"
       ∧ Get "Authorization" (srv_Header request) = "Basic dXNlcg==").
Proof.
  split; [split; reflexivity|]. split.
  - eexists. split.
    + apply (proj1 (Send_outcome (C:=brokenEncoder) newResponseWriter
                      (bytes "{}") patchWithAuth)
               [] (LibError "unsupported type")).
      reflexivity.
    + split; reflexivity.
  - destruct (proj2 (proj2 (Send_outcome (C:=conversion) newResponseWriter
                              (bytes "{}") patchWithAuth))
                (bytes "{}")
                {| srv_Method := "POST";
                   srv_URL := "https://xmidt.example.net/api/v2/device";
                   srv_Header := ∅; srv_Body := bytes "{}" |}
                eq_refl eq_refl)
      as (request & Hsend & _ & Hurl & _ & _ & Hauth & _).
    eexists _, request. split; [exact Hsend|]. split; [reflexivity|].
    split; [reflexivity|]. split; [exact Hurl|]. rewrite Hauth. reflexivity.
Defined.

End ExamplesMore.
